(** * Optima-IDP: the recommendation controller

    A shallow embedding of [backend/controllers/recommender.controller.js]
    ([getWeights] and [getSuggestions]) and the properties of its
    orchestration: weight resolution, signal aggregation, the oracle call
    with its local fallback, and the reconciliation of the response.

    Conventions of the embedding.
    - A JavaScript computation that may raise is a value of [result]: [Ok v]
      or [Throw msg]; [try { .. } catch] is [try_catch].
    - The stores (Mongoose models) are lists of documents in a [DB]; a query
      is a function on those lists, guarded by [query], which raises when the
      store is unavailable at that call site.
    - An optional field of a document is an [option]; JavaScript truthiness
      of such a field is [truthy] (absent and the empty string are falsy).
    - Identifiers are already in their canonical string form (the result of
      [toString()] on an ObjectId). *)

From Stdlib Require Import QArith.
From stdpp Require Import base option list strings gmap sorting.

Local Open Scope string_scope.

(** ** Computations that may raise *)

Inductive result (A : Type) : Type :=
| Ok (a : A)
| Throw (msg : string).
Arguments Ok {A} a.
Arguments Throw {A} msg.

#[global] Instance result_ret : MRet result := λ A a, Ok a.
#[global] Instance result_bind : MBind result := λ A B f m,
  match m with
  | Ok a => f a
  | Throw e => Throw e
  end.

(** [try { body } catch (e) { handler e }] *)
Definition try_catch {A} (body : result A) (handler : string → result A) : result A :=
  match body with
  | Ok a => Ok a
  | Throw e => handler e
  end.

(** ** JSON values (weight configurations are passed around unvalidated) *)

#[warnings="-register-all"]
Inductive JSON : Type :=
| JNull
| JBool (b : bool)
| JNum (q : Q)
| JStr (s : string)
| JArr (items : list JSON)
| JObj (fields : list (string * JSON)).

(** JavaScript truthiness of a JSON value. *)
Definition js_truthy (v : JSON) : bool :=
  match v with
  | JNull => false
  | JBool b => b
  | JNum q => negb (Qeq_bool q 0)
  | JStr s => bool_decide (s ≠ "")
  | JArr _ | JObj _ => true
  end.

(** Truthiness of an optional string field: [undefined] and [""] are falsy. *)
Definition truthy (o : option string) : bool :=
  match o with
  | Some s => bool_decide (s ≠ "")
  | None => false
  end.

(** [a || b] on optional string fields. *)
Definition js_or (a b : option string) : option string :=
  if truthy a then a else b.

(** ** Documents of the stores *)

Record SkillEntry := {
  se_skillId : string;
  se_level : option nat
}.

Record CompanySettings := {
  cs_aiWeights : option JSON
}.

Record User := {
  u_id : string;
  u_name : string;
  u_company : string;
  u_role : string;
  u_skills : list SkillEntry;
  u_companySettings : option CompanySettings
}.

Record Skill := {
  sk_id : string;
  sk_name : string
}.

Record Resource := {
  r_id : string;
  r_title : option string;
  r_provider : option string;
  r_type : option string;
  r_url : option string;
  r_duration : option string;
  r_createdBy : option string;
  r_skill : option string
}.

Record PerformanceReport := {
  pr_id : string;
  pr_employee : string;
  pr_createdAt : Z
}.

Record IDP := {
  idp_employee : string;
  idp_status : string;
  idp_createdAt : Z;
  idp_goals : string;
  idp_recommendedResources : list string
}.

#[global] Instance IDP_eq_dec : EqDecision IDP.
Proof. solve_decision. Defined.

Record DB := {
  db_users : list User;
  db_skills : list Skill;
  db_resources : list Resource;
  db_reports : list PerformanceReport;
  db_idps : list IDP
}.

(** The store calls of the controller, in the order of the source. *)
Inductive QuerySite : Type :=
| QUserFindById       (* line 55 *)
| QIdpFindOne         (* line 69 *)
| QReportFind         (* line 77 *)
| QSkillFind          (* line 88 *)
| QCompanyUsers       (* line 92 *)
| QResourceFind       (* line 96 *)
| QPeerUsers          (* line 102 *)
| QPeerIdps           (* line 109 *)
| QAdminFindOne.      (* line 26, inside getWeights *)

#[global] Instance QuerySite_eq_dec : EqDecision QuerySite.
Proof. solve_decision. Defined.

(** ** The request, the oracle and the response *)

Record TargetSkill := {
  ts_skillId : string;
  ts_targetLevel : nat
}.

Record Request := {
  req_user_id : string;          (* req.user._id *)
  req_user_company : string;     (* req.user.company *)
  req_targetSkills : option (list TargetSkill)   (* req.body.targetSkills *)
}.

(** [createdBy] after [populate("createdBy", "name")]. *)
Record Creator := {
  c_id : string;
  c_name : string
}.

(** An element of [formattedResources]. *)
Record FormattedResource := {
  fr_id : string;
  fr_title : option string;
  fr_provider : option string;
  fr_type : option string;
  fr_url : option string;
  fr_duration : option string;
  fr_createdBy : option Creator;
  fr_skill : option string
}.

(** A recommendation item; an item of the oracle may carry its identifier
    in any of [resourceId], [_id], [id]. *)
Record Rec := {
  rec_resourceId : option string;
  rec__id : option string;
  rec_id : option string;
  rec_title : option string;
  rec_provider : option string;
  rec_type : option string;
  rec_url : option string;
  rec_duration : option string;
  rec_author : option string
}.

Record AiResponse := {
  recommendations : option (list Rec)
}.

Record UserSkill := {
  us_skillId : string;
  us_level : option nat
}.

Record PeerSkill := {
  ps_skillId : string;
  ps_level : nat
}.

Record Peer := {
  peer_userId : string;
  peer_skills : list PeerSkill;
  peer_resources : list string
}.

Record Payload := {
  user_skills : list UserSkill;
  skills_to_improve : list TargetSkill;
  performance_reports : list PerformanceReport;
  p_resources : list FormattedResource;
  p_skills : list Skill;
  user_skills_data : list unit;
  peer_data : list Peer;
  limit : nat;
  persona : string;
  custom_weights : JSON;
  goal_text : string
}.

(** What [RecommenderService.getRecommendedResources] does with a payload:
    the promise rejects with an error that carries a message, or it resolves
    to a body ([None] is a body that is [null] or [undefined]). *)
Inductive OracleOutcome : Type :=
| OracleThrows (msg : string)
| OracleReturns (body : option AiResponse).

Inductive Response : Type :=
| R200 (recs : list Rec)                 (* res.status(200).json(aiResponse) *)
| R404 (message : string)
| R500 (message : string) (error : string).

(** Everything outside the controller. *)
Record World := {
  w_db : DB;
  (** [w_faults s = Some e]: the store call at site [s] rejects with [e]. *)
  w_faults : QuerySite → option string;
  (** [fs.existsSync(CONFIG_PATH)] *)
  w_existsSync : bool;
  (** [fs.readFileSync(CONFIG_PATH, "utf8")] *)
  w_readFileSync : result string;
  (** [JSON.parse] *)
  w_JSON_parse : string → result JSON;
  (** the scoring oracle behind [RecommenderService] *)
  w_oracle : Payload → OracleOutcome;
  (** [arr.sort(() => 0.5 - Math.random())]: the order the engine's sort
      leaves the array in *)
  w_shuffle : list FormattedResource → list FormattedResource
}.

Definition query {A} (w : World) (s : QuerySite) (v : A) : result A :=
  match w_faults w s with
  | Some e => Throw e
  | None => Ok v
  end.

(** ** getWeights (lines 10-45) *)

Definition DEFAULT_WEIGHTS : JSON :=
  JObj [ ("skill_gap", JNum (30 # 100));
         ("skill_relevance", JNum (20 # 100));
         ("difficulty_match", JNum (20 # 100));
         ("collaborative", JNum (15 # 100));
         ("resource_type", JNum (0 # 100));
         ("skill_similarity", JNum (15 # 100)) ].

(** [User.findOne({ company, role: 'admin' })] *)
Definition User_findOne_admin (db : DB) (company : string) : option User :=
  find (λ u, bool_decide (u_company u = company) && bool_decide (u_role u = "admin"))
       (db_users db).

(** [adminUser && adminUser.companySettings && adminUser.companySettings.aiWeights]:
    the weights when the whole conjunction is truthy. *)
Definition admin_aiWeights (adminUser : option User) : option JSON :=
  match adminUser with
  | Some u =>
      match u_companySettings u with
      | Some cs =>
          match cs_aiWeights cs with
          | Some wts => if js_truthy wts then Some wts else None
          | None => None
          end
      | None => None
      end
  | None => None
  end.

(** The body of the outer [try]: [Ok (Some v)] is [return v] from inside it,
    [Ok None] is falling out of its end. *)
Definition getWeights_try (w : World) (company : string) : result (option JSON) :=
  adminUser ← query w QAdminFindOne (User_findOne_admin (w_db w) company);
  match admin_aiWeights adminUser with
  | Some wts => Ok (Some wts)
  | None =>
      if w_existsSync w then
        try_catch
          (txt ← w_readFileSync w;
           cfg ← w_JSON_parse w txt;
           Ok (Some cfg))
          (λ _, Ok None)
      else Ok None
  end.

Definition getWeights (w : World) (company : string) : result JSON :=
  r ← try_catch (getWeights_try w company) (λ _, Ok None);
  match r with
  | Some v => Ok v
  | None => Ok DEFAULT_WEIGHTS
  end.

(** ** getSuggestions: signal aggregation (lines 49-145) *)

(** [User.findById(userId)] *)
Definition User_findById (db : DB) (userId : string) : option User :=
  find (λ u, bool_decide (u_id u = userId)) (db_users db).

(** [populate("skills.skillId")]: the referenced skill document, or [null]
    when the reference dangles. *)
Definition populate_skillId (db : DB) (skillId : string) : option Skill :=
  find (λ s, bool_decide (sk_id s = skillId)) (db_skills db).

(** Lines 62-65; [s.skillId._id] raises a TypeError on a [null] skillId. *)
Definition userSkills (db : DB) (user : User) : result (list UserSkill) :=
  mapM (λ s,
          match populate_skillId db (se_skillId s) with
          | Some sk => Ok {| us_skillId := sk_id sk; us_level := se_level s |}
          | None => Throw "Cannot read properties of null (reading '_id')"
          end)
       (u_skills user).

(** [sort({ createdAt: -1 })] on development plans. *)
Definition idp_newer_first (a b : IDP) : Prop :=
  (idp_createdAt b ≤ idp_createdAt a)%Z.

#[global] Instance idp_newer_first_dec a b : Decision (idp_newer_first a b).
Proof. unfold idp_newer_first. apply _. Defined.

#[global] Instance idp_newer_first_trans : Transitive idp_newer_first.
Proof. unfold idp_newer_first. intros a b c ??. lia. Qed.

#[global] Instance idp_newer_first_total : Total idp_newer_first.
Proof. unfold idp_newer_first. intros a b. lia. Qed.

Definition goal_statuses : list string := ["approved"; "pending"; "draft"].

(** Lines 69-72:
    [IDP.findOne({ employee, status: { $in: [..] } }).sort({ createdAt: -1 })].
    Among plans created at the same instant the store may pick any one; here
    it is the one the merge sort puts first. *)
Definition latestIdp (db : DB) (userId : string) : option IDP :=
  head (merge_sort idp_newer_first
          (filter (λ i, idp_employee i = userId ∧ idp_status i ∈ goal_statuses)
                  (db_idps db))).

(** Line 74 *)
Definition goalText (latest : option IDP) : string :=
  match latest with
  | Some i => idp_goals i
  | None => ""
  end.

Definition report_newer_first (a b : PerformanceReport) : Prop :=
  (pr_createdAt b ≤ pr_createdAt a)%Z.

#[global] Instance report_newer_first_dec a b : Decision (report_newer_first a b).
Proof. unfold report_newer_first. apply _. Defined.

(** Lines 77-80 *)
Definition reports (db : DB) (userId : string) : list PerformanceReport :=
  take 5 (merge_sort report_newer_first
            (filter (λ r, pr_employee r = userId) (db_reports db))).

(** Line 92: [User.find({ company: userCompany })] *)
Definition companyUsers (db : DB) (userCompany : string) : list User :=
  filter (λ u, u_company u = userCompany) (db_users db).

(** [createdBy: { $in: companyUserIds }] *)
Definition createdBy_in (ids : list string) (r : Resource) : Prop :=
  match r_createdBy r with
  | Some c => c ∈ ids
  | None => False
  end.

#[global] Instance createdBy_in_dec ids r : Decision (createdBy_in ids r).
Proof. unfold createdBy_in. destruct (r_createdBy r); apply _. Defined.

(** [populate("createdBy", "name")] *)
Definition populate_createdBy (db : DB) (r : Resource) : option Creator :=
  c ← r_createdBy r;
  u ← find (λ u, bool_decide (u_id u = c)) (db_users db);
  Some {| c_id := u_id u; c_name := u_name u |}.

(** Lines 96-98: each document with its populated [createdBy]. *)
Definition allResources (db : DB) (companyUserIds : list string)
  : list (Resource * option Creator) :=
  (λ r, (r, populate_createdBy db r)) <$>
    filter (createdBy_in companyUserIds) (db_resources db).

(** Lines 102-107 *)
Definition allUsers (db : DB) (userId userCompany : string) : list User :=
  filter (λ u, u_id u ≠ userId ∧ u_company u = userCompany) (db_users db).

Definition peer_statuses : list string := ["approved"; "completed"].

(** Lines 109-112 *)
Definition allIDPs (db : DB) (peerIds : list string) : list IDP :=
  filter (λ i, idp_status i ∈ peer_statuses ∧ idp_employee i ∈ peerIds) (db_idps db).

(** [Set.prototype.add] on a set kept in insertion order. *)
Definition set_add (x : string) (s : list string) : list string :=
  if bool_decide (x ∈ s) then s else (s ++ [x])%list.

(** The body of the [forEach] of lines 116-120. *)
Definition userResourcesMap_step (m : gmap string (list string)) (idp : IDP)
  : gmap string (list string) :=
  let empId := idp_employee idp in
  let m1 := match m !! empId with
            | Some _ => m
            | None => <[empId := []]> m
            end in
  alter (λ s, foldl (λ s rId, set_add rId s) s (idp_recommendedResources idp)) empId m1.

Definition userResourcesMap (idps : list IDP) : gmap string (list string) :=
  foldl userResourcesMap_step ∅ idps.

(** [s.level || 1] *)
Definition level_or_1 (l : option nat) : nat :=
  match l with
  | Some (S n) => S n
  | _ => 1%nat
  end.

Definition mkPeer (m : gmap string (list string)) (peer : User) : Peer :=
  {| peer_userId := u_id peer;
     peer_skills :=
       (λ s, {| ps_skillId := se_skillId s; ps_level := level_or_1 (se_level s) |})
         <$> u_skills peer;
     peer_resources := default [] (m !! u_id peer) |}.

(** Lines 122-129 *)
Definition peerData (peers : list User) (idps : list IDP) : list Peer :=
  filter (λ p, (0 < length (peer_resources p))%nat ∨ (0 < length (peer_skills p))%nat)
         (mkPeer (userResourcesMap idps) <$> peers).

(** [(r.provider && r.provider !== 'Unknown')] *)
Definition provider_known (p : option string) : bool :=
  truthy p && bool_decide (p ≠ Some "Unknown").

(** Lines 139-145 *)
Definition formatResource (rc : Resource * option Creator) : FormattedResource :=
  let '(r, createdBy) := rc in
  {| fr_id := r_id r;
     fr_title := r_title r;
     fr_provider :=
       if provider_known (r_provider r) then r_provider r
       else match createdBy with
            | Some c => Some (c_name c)
            | None => Some "Unknown"
            end;
     fr_type := r_type r;
     fr_url := r_url r;
     fr_duration := r_duration r;
     fr_createdBy := createdBy;
     fr_skill := r_skill r |}.

Definition formattedResources (rs : list (Resource * option Creator))
  : list FormattedResource :=
  formatResource <$> rs.

Record Aggregated := {
  agg_formattedResources : list FormattedResource;
  agg_payload : Payload
}.

(** Lines 60-162, for a requester whose profile was found. *)
Definition aggregate (w : World) (req : Request) (user : User) : result Aggregated :=
  let db := w_db w in
  let userId := req_user_id req in
  let userCompany := req_user_company req in
  uSkills ← userSkills db user;
  latest ← query w QIdpFindOne (latestIdp db userId);
  performanceReports ← query w QReportFind (reports db userId);
  allSkills ← query w QSkillFind (db_skills db);
  cUsers ← query w QCompanyUsers (companyUsers db userCompany);
  resources ← query w QResourceFind (allResources db (u_id <$> cUsers));
  peers ← query w QPeerUsers (allUsers db userId userCompany);
  idps ← query w QPeerIdps (allIDPs db (u_id <$> peers));
  params ← getWeights w (u_company user);
  Ok {| agg_formattedResources := formattedResources resources;
        agg_payload :=
          {| user_skills := uSkills;
             skills_to_improve := default [] (req_targetSkills req);
             performance_reports := performanceReports;
             p_resources := formattedResources resources;
             p_skills := allSkills;
             user_skills_data := [];
             peer_data := peerData peers idps;
             limit := 10;
             persona := u_role user;
             custom_weights := params;
             goal_text := goalText latest |} |}.

(** The store calls made between the profile lookup and the oracle call. *)
Definition aggregation_sites : list QuerySite :=
  [QIdpFindOne; QReportFind; QSkillFind; QCompanyUsers; QResourceFind;
   QPeerUsers; QPeerIdps].

(** ** getSuggestions: oracle call, fallback and reconciliation (lines 164-208) *)

(** Lines 174-182: a candidate in the shape of a recommendation. *)
Definition fallbackRec (r : FormattedResource) : Rec :=
  {| rec_resourceId := Some (fr_id r);
     rec__id := None;
     rec_id := None;
     rec_title := fr_title r;
     rec_provider := fr_provider r;
     rec_type := fr_type r;
     rec_url := fr_url r;
     rec_duration := fr_duration r;
     rec_author := Some (match fr_createdBy r with
                         | Some c => c_name c
                         | None => "Unknown"
                         end) |}.

(** Lines 164-184. The result is [aiResponse] together with the contents of
    the array [formattedResources] afterwards: [sort] on line 172 reorders
    that array in place, and line 193 reads it again. *)
Definition dispatch (w : World) (agg : Aggregated)
  : option AiResponse * list FormattedResource :=
  match w_oracle w (agg_payload agg) with
  | OracleReturns body => (body, agg_formattedResources agg)
  | OracleThrows _ =>
      let shuffled := w_shuffle w (agg_formattedResources agg) in
      (Some {| recommendations := Some (fallbackRec <$> take 10 shuffled) |}, shuffled)
  end.

(** Line 192: [rec.resourceId || rec._id || rec.id] *)
Definition rId (rec : Rec) : option string :=
  js_or (js_or (rec_resourceId rec) (rec__id rec)) (rec_id rec).

(** Line 193: [formattedResources.find(fr => fr._id === rId)] *)
Definition originalRes (frs : list FormattedResource) (rec : Rec) : option FormattedResource :=
  find (λ fr, bool_decide (Some (fr_id fr) = rId rec)) frs.

(** [!rec.provider || rec.provider === 'Unknown'] *)
Definition provider_missing (rec : Rec) : bool :=
  negb (truthy (rec_provider rec)) || bool_decide (rec_provider rec = Some "Unknown").

Definition set_provider (rec : Rec) (p : option string) : Rec :=
  {| rec_resourceId := rec_resourceId rec;
     rec__id := rec__id rec;
     rec_id := rec_id rec;
     rec_title := rec_title rec;
     rec_provider := p;
     rec_type := rec_type rec;
     rec_url := rec_url rec;
     rec_duration := rec_duration rec;
     rec_author := rec_author rec |}.

(** Lines 193-197: the item after the assignment to [rec.provider]. *)
Definition backfill (frs : list FormattedResource) (rec : Rec) : Rec :=
  match originalRes frs rec with
  | Some orig =>
      if provider_missing rec then set_provider rec (fr_provider orig) else rec
  | None => rec
  end.

(** The state of the loop of lines 188-203: [uniqueRecs] and [seenIds]. *)
Definition DedupState : Type := list Rec * gset string.

(** One iteration of the [forEach] of lines 191-203. *)
Definition dedup_step (frs : list FormattedResource) (st : DedupState) (rec : Rec)
  : DedupState :=
  let '(uniqueRecs, seenIds) := st in
  let rec' := backfill frs rec in
  match rId rec with
  | Some i =>
      if truthy (Some i) && negb (bool_decide (i ∈ seenIds))
      then ((uniqueRecs ++ [rec'])%list, {[ i ]} ∪ seenIds)
      else st
  | None => st
  end.

(** Lines 188-204: the new value of [aiResponse.recommendations]. *)
Definition uniqueRecs (frs : list FormattedResource) (recs : list Rec) : list Rec :=
  (foldl (dedup_step frs) ([], ∅) recs).1.

(** Lines 187-205 *)
Definition deduplicate (frs : list FormattedResource) (aiResponse : option AiResponse)
  : option AiResponse :=
  match aiResponse with
  | Some r =>
      match recommendations r with
      | Some recs => Some {| recommendations := Some (uniqueRecs frs recs) |}
      | None => aiResponse
      end
  | None => None
  end.

(** Lines 207-208: [aiResponse.recommendations.length] is read before the
    response is sent, and raises a TypeError when there is no such list. *)
Definition respond (aiResponse : option AiResponse) : result Response :=
  match aiResponse with
  | Some r =>
      match recommendations r with
      | Some recs => Ok (R200 recs)
      | None => Throw "Cannot read properties of undefined (reading 'length')"
      end
  | None => Throw "Cannot read properties of undefined (reading 'recommendations')"
  end.

(** Lines 164-208 *)
Definition finish (w : World) (agg : Aggregated) : result Response :=
  let '(aiResponse, frs) := dispatch w agg in
  respond (deduplicate frs aiResponse).

(** The body of the [try] of lines 48-209. *)
Definition getSuggestions_try (w : World) (req : Request) : result Response :=
  user ← query w QUserFindById (User_findById (w_db w) (req_user_id req));
  match user with
  | None => Ok (R404 "User not found")
  | Some user =>
      agg ← aggregate w req user;
      finish w agg
  end.

(** Lines 47-214 *)
Definition getSuggestions (w : World) (req : Request) : Response :=
  match getSuggestions_try w req with
  | Ok r => r
  | Throw e => R500 "Failed to generate suggestions" e
  end.

(** ** The resolver and the reconciler as the specification words them *)

(** One tier of the weight resolver: a lookup that may raise, and that may
    find nothing. *)
Definition Tier : Type := result (option JSON).

Definition tier_admin (w : World) (company : string) : Tier :=
  adminUser ← query w QAdminFindOne (User_findOne_admin (w_db w) company);
  Ok (admin_aiWeights adminUser).

Definition tier_legacy (w : World) : Tier :=
  if w_existsSync w then
    txt ← w_readFileSync w;
    cfg ← w_JSON_parse w txt;
    Ok (Some cfg)
  else Ok None.

(** Ordered tiers, each with its own failure handling: the first one that
    yields a configuration wins, an error or a miss moves on to the next
    one, and the hard-coded defaults close the list. *)
Fixpoint first_tier (tiers : list Tier) : JSON :=
  match tiers with
  | [] => DEFAULT_WEIGHTS
  | Ok (Some cfg) :: _ => cfg
  | _ :: rest => first_tier rest
  end.

Definition resolve_weights_spec (w : World) (company : string) : JSON :=
  first_tier [tier_admin w company; tier_legacy w].

(** An item carries an identifier when [rId] is truthy. *)
Definition has_id (rec : Rec) : Prop := truthy (rId rec).

(** Keep the first occurrence of each identifier, in the original order:
    an item stays when it carries an identifier that no item kept before it
    carries. Items are visited from the left; [seen] holds the identifiers
    met so far. *)
Fixpoint keep_first (seen : list (option string)) (recs : list Rec) : list Rec :=
  match recs with
  | [] => []
  | rec :: rest =>
      if decide (has_id rec ∧ rId rec ∉ seen)
      then rec :: keep_first (rId rec :: seen) rest
      else keep_first seen rest
  end.

(** An item carries an identifier, field by field: one of the three fields
    is present and not empty. *)
Definition carries_identifier (rec : Rec) : Prop :=
  truthy (rec_resourceId rec) ∨ truthy (rec__id rec) ∨ truthy (rec_id rec).

(** The oracle call fails, as the specification lists the failures: the
    oracle is unreachable, times out or answers with an error (the call
    rejects), or it answers with malformed data (a body that holds no list
    of recommendations). *)
Definition oracle_failed (o : OracleOutcome) : Prop :=
  match o with
  | OracleThrows _ => True
  | OracleReturns (Some {| recommendations := Some _ |}) => False
  | OracleReturns _ => True
  end.

(** A development plan of the requester in an eligible state. *)
Definition eligible_plan (db : DB) (userId : string) (p : IDP) : Prop :=
  p ∈ db_idps db ∧ idp_employee p = userId ∧
  (idp_status p = "draft" ∨ idp_status p = "pending" ∨ idp_status p = "approved").

(** A peer of the requester: another user of the same company. *)
Definition is_peer (db : DB) (req : Request) (u : User) : Prop :=
  u ∈ db_users db ∧ u_id u ≠ req_user_id req ∧ u_company u = req_user_company req.

(** [resourceId] is recommended in an approved or completed development
    plan of the employee [userId]. *)
Definition consumed (db : DB) (userId resourceId : string) : Prop :=
  ∃ idp, idp ∈ db_idps db ∧ idp_employee idp = userId ∧
         (idp_status idp = "approved" ∨ idp_status idp = "completed") ∧
         resourceId ∈ idp_recommendedResources idp.

(** A resource of another tenant: whoever created it is not a user of
    [company]. *)
Definition foreign_resource (db : DB) (company : string) (r : Resource) : Prop :=
  ∀ u, u ∈ db_users db → r_createdBy r = Some (u_id u) → u_company u ≠ company.

(** ** A company, its neighbour and a few oracles *)

Module Sample.

Definition mkUser (i name company role : string) (skills : list SkillEntry) : User :=
  {| u_id := i; u_name := name; u_company := company; u_role := role;
     u_skills := skills; u_companySettings := None |}.

Definition alice : User :=
  mkUser "u-alice" "Alice" "acme" "employee" [ {| se_skillId := "s1"; se_level := Some 2%nat |} ].
Definition adam : User := mkUser "u-adam" "Adam" "acme" "admin" [].
Definition dana : User :=
  mkUser "u-dana" "Dana" "acme" "manager" [ {| se_skillId := "s2"; se_level := None |} ].
Definition paul : User := mkUser "u-paul" "Paul" "acme" "employee" [].
Definition bob : User := mkUser "u-bob" "Bob" "globex" "employee" [].

Definition mkResource (i : string) (title provider : option string) (by_ : string) : Resource :=
  {| r_id := i; r_title := title; r_provider := provider; r_type := Some "course";
     r_url := None; r_duration := None; r_createdBy := Some by_; r_skill := Some "s2" |}.

Definition r1 : Resource := mkResource "r1" (Some "Rocq in a week") (Some "Unknown") "u-dana".
Definition r2 : Resource := mkResource "r2" (Some "Leading teams") (Some "Coursera") "u-alice".
Definition r3 : Resource := mkResource "r3" (Some "SQL") None "u-adam".
Definition rB : Resource := mkResource "rB" (Some "Globex handbook") (Some "Globex") "u-bob".

Definition mkIDP (e status : string) (at_ : Z) (goals : string) (rs : list string) : IDP :=
  {| idp_employee := e; idp_status := status; idp_createdAt := at_;
     idp_goals := goals; idp_recommendedResources := rs |}.

Definition db0 : DB :=
  {| db_users := [alice; adam; dana; paul; bob];
     db_skills := [ {| sk_id := "s1"; sk_name := "Rocq" |};
                    {| sk_id := "s2"; sk_name := "Leadership" |} ];
     db_resources := [r1; r2; rB; r3];
     db_reports := [ {| pr_id := "p1"; pr_employee := "u-alice"; pr_createdAt := 5 |} ];
     db_idps := [ mkIDP "u-alice" "draft" 1 "learn Rocq" [];
                  mkIDP "u-alice" "approved" 2 "lead a team" ["r2"];
                  mkIDP "u-alice" "rejected" 3 "retire" [];
                  mkIDP "u-dana" "approved" 1 "mentor" ["r1"; "r2"; "r1"];
                  mkIDP "u-dana" "completed" 2 "mentor more" ["r2"; "r3"];
                  mkIDP "u-bob" "approved" 1 "globex" ["rB"] ] |}.

Definition req0 : Request :=
  {| req_user_id := "u-alice"; req_user_company := "acme";
     req_targetSkills := Some [ {| ts_skillId := "s2"; ts_targetLevel := 4 |} ] |}.

(** A request of somebody the user store does not know. *)
Definition req_ghost : Request :=
  {| req_user_id := "u-ghost"; req_user_company := "acme"; req_targetSkills := None |}.

(** What the aggregation makes of [req0]: the candidates, and the payload
    for the oracle. *)
Definition mkCandidate (i title provider by_ name : string) : FormattedResource :=
  {| fr_id := i; fr_title := Some title; fr_provider := Some provider;
     fr_type := Some "course"; fr_url := None; fr_duration := None;
     fr_createdBy := Some {| c_id := by_; c_name := name |}; fr_skill := Some "s2" |}.

Definition candidates0 : list FormattedResource :=
  [ mkCandidate "r1" "Rocq in a week" "Dana" "u-dana" "Dana";
    mkCandidate "r2" "Leading teams" "Coursera" "u-alice" "Alice";
    mkCandidate "r3" "SQL" "Adam" "u-adam" "Adam" ].

Definition agg0 : Aggregated :=
  {| agg_formattedResources := candidates0;
     agg_payload :=
       {| user_skills := [ {| us_skillId := "s1"; us_level := Some 2%nat |} ];
          skills_to_improve := [ {| ts_skillId := "s2"; ts_targetLevel := 4 |} ];
          performance_reports := db_reports db0;
          p_resources := candidates0;
          p_skills := db_skills db0;
          user_skills_data := [];
          peer_data :=
            [ {| peer_userId := "u-dana";
                 peer_skills := [ {| ps_skillId := "s2"; ps_level := 1 |} ];
                 peer_resources := ["r1"; "r2"; "r3"] |} ];
          limit := 10;
          persona := "employee";
          custom_weights := DEFAULT_WEIGHTS;
          goal_text := "lead a team" |} |}.

Definition no_faults : QuerySite → option string := λ _, None.

Definition parse0 (txt : string) : result JSON :=
  if decide (txt = "{}") then Ok (JObj []) else Throw "Unexpected token".

Definition mkWorld (faults : QuerySite → option string) (oracle : Payload → OracleOutcome)
  : World :=
  {| w_db := db0; w_faults := faults; w_existsSync := false;
     w_readFileSync := Throw "ENOENT"; w_JSON_parse := parse0;
     w_oracle := oracle; w_shuffle := reverse |}.

Definition mkRec (resourceId _id id provider : option string) : Rec :=
  {| rec_resourceId := resourceId; rec__id := _id; rec_id := id;
     rec_title := None; rec_provider := provider; rec_type := None;
     rec_url := None; rec_duration := None; rec_author := None |}.

Definition answers (recs : list Rec) : Payload → OracleOutcome :=
  λ _, OracleReturns (Some {| recommendations := Some recs |}).

(** The oracle answers, naming identifiers in all three ways, repeating one,
    and sending one item without any. *)
Definition recs_ok : list Rec :=
  [ mkRec (Some "r1") None None (Some "Unknown");
    mkRec None (Some "r2") None None;
    mkRec None None None (Some "nobody");
    mkRec (Some "") None (Some "r1") (Some "again");
    mkRec None None (Some "r3") (Some "Udemy") ].

Definition w_ok : World := mkWorld no_faults (answers recs_ok).

(** What the controller answers then. *)
Definition returned_ok : list Rec :=
  [ mkRec (Some "r1") None None (Some "Dana");
    mkRec None (Some "r2") None (Some "Coursera");
    mkRec None None (Some "r3") (Some "Udemy") ].

(** The oracle is unreachable. *)
Definition w_down : World := mkWorld no_faults (λ _, OracleThrows "ECONNREFUSED").

Definition mkFallback (i title provider author : string) : Rec :=
  {| rec_resourceId := Some i; rec__id := None; rec_id := None;
     rec_title := Some title; rec_provider := Some provider;
     rec_type := Some "course"; rec_url := None; rec_duration := None;
     rec_author := Some author |}.

(** What the controller answers then ([w_shuffle] reverses). *)
Definition returned_down : list Rec :=
  [ mkFallback "r3" "SQL" "Adam" "Adam";
    mkFallback "r2" "Leading teams" "Coursera" "Alice";
    mkFallback "r1" "Rocq in a week" "Dana" "Dana" ].

(** The oracle answers with a body that has no list of recommendations. *)
Definition w_malformed : World :=
  mkWorld no_faults (λ _, OracleReturns (Some {| recommendations := None |})).

(** The oracle answers with eleven distinct items. *)
Definition recs_eleven : list Rec :=
  (λ i, mkRec (Some i) None None None)
    <$> ["a"; "b"; "c"; "d"; "e"; "f"; "g"; "h"; "i"; "j"; "k"].

Definition w_eleven : World := mkWorld no_faults (answers recs_eleven).

(** The oracle answers with the identifier of a resource of the other company. *)
Definition w_foreign : World :=
  mkWorld no_faults (answers [ mkRec (Some "rB") None None (Some "Globex") ]).

(** The user store is down when the weights are looked up, and a well-formed
    legacy file is on disk. *)
Definition w_store_down : World :=
  {| w_db := db0;
     w_faults := λ s, if decide (s = QAdminFindOne) then Some "store unavailable" else None;
     w_existsSync := true;
     w_readFileSync := Ok "{}";
     w_JSON_parse := parse0;
     w_oracle := answers recs_ok;
     w_shuffle := reverse |}.

(** The resource store is down. *)
Definition w_resources_down : World :=
  mkWorld (λ s, if decide (s = QResourceFind) then Some "store unavailable" else None)
          (answers recs_ok).

End Sample.

(** ** More of the code: report order, the manager dashboard, more samples *)

#[global] Instance report_newer_first_trans : Transitive report_newer_first.
Proof. unfold report_newer_first. intros a b c ??. lia. Qed.

#[global] Instance report_newer_first_total : Total report_newer_first.
Proof. unfold report_newer_first. intros a b. lia. Qed.

(** The requester's skill entry as it is sent to the oracle when the skill
    reference resolves: the identifier of the skill, and the stored level
    as it is. *)
Definition sentSkill (s : SkillEntry) : UserSkill :=
  {| us_skillId := se_skillId s; us_level := se_level s |}.

(** The skill store holds the skill an entry of a profile refers to. *)
Definition skill_known (db : DB) (s : SkillEntry) : Prop :=
  ∃ sk, sk ∈ db_skills db ∧ sk_id sk = se_skillId s.

(** [frontend/src/dashboards/ManagerDashboard.jsx], lines 31-129 and 338-341:
    the state the component keeps about pending plans, and the handlers
    that act on one of them. *)
Module Dashboard.

Record PendingIdp := {
  pi_id : string;          (* idp._id *)
  pi_status : string
}.

Record AlertConfig := {
  al_isOpen : bool;
  al_title : string;
  al_message : string;
  al_showCancel : bool;
  al_confirmText : string
}.

Record FeedbackConfig := {
  fb_isOpen : bool;
  fb_idpId : option string;     (* [null] while no plan is under review *)
  fb_status : option string
}.

Record State := {
  pendingIDPs : list PendingIdp;
  feedbackConfig : FeedbackConfig;
  alertConfig : AlertConfig
}.

(** The state of lines 32-53, once the pending plans are loaded. *)
Definition initial (idps : list PendingIdp) : State :=
  {| pendingIDPs := idps;
     feedbackConfig := {| fb_isOpen := false; fb_idpId := None; fb_status := None |};
     alertConfig := {| al_isOpen := false; al_title := ""; al_message := "";
                       al_showCancel := false; al_confirmText := "OK" |} |}.

(** [api.put(`/idp/approve/${idpId}`, { status, managerFeedback })]: what the
    backend does with the plan, the status and the feedback. *)
Definition Api : Type := option string → option string → string → result unit.

(** Lines 61-69 *)
Definition showAlert (title message : string) (st : State) : State :=
  {| pendingIDPs := pendingIDPs st;
     feedbackConfig := feedbackConfig st;
     alertConfig := {| al_isOpen := true; al_title := title; al_message := message;
                       al_showCancel := false; al_confirmText := "OK" |} |}.

(** Lines 119-129 *)
Definition submitAction (api : Api) (idpId status : option string) (feedback : string)
    (st : State) : State :=
  match api idpId status feedback with
  | Ok _ =>
      showAlert "Success"
        ("IDP " +:+ (if decide (status = Some "needs_revision")
                     then "returned for revision" else "updated"))
        {| pendingIDPs := filter (λ p, Some (pi_id p) ≠ idpId) (pendingIDPs st);
           feedbackConfig := {| fb_isOpen := false; fb_idpId := None; fb_status := None |};
           alertConfig := alertConfig st |}
  | Throw _ => showAlert "Error" "Action failed" st
  end.

(** Lines 106-116 *)
Definition handleAction (api : Api) (idpId status : string) (st : State) : State :=
  if decide (status = "approved")
  then submitAction api (Some idpId) (Some status) "Approved by manager" st
  else {| pendingIDPs := pendingIDPs st;
          feedbackConfig := {| fb_isOpen := true; fb_idpId := Some idpId;
                               fb_status := Some status |};
          alertConfig := alertConfig st |}.

(** Line 341: the [onConfirm] of the feedback modal. *)
Definition confirmFeedback (api : Api) (feedback : string) (st : State) : State :=
  submitAction api (fb_idpId (feedbackConfig st)) (fb_status (feedbackConfig st))
               feedback st.

End Dashboard.

Module SampleMore.

(** A requester whose profile lists a skill the skill store does not hold. *)
Definition carol : User :=
  Sample.mkUser "u-carol" "Carol" "acme" "employee"
    [ {| se_skillId := "s1"; se_level := Some 3%nat |};
      {| se_skillId := "s-gone"; se_level := Some 1%nat |} ].

Definition mkReport (i : string) (at_ : Z) : PerformanceReport :=
  {| pr_id := i; pr_employee := "u-alice"; pr_createdAt := at_ |}.

(** Seven reports of the requester, one of somebody else. *)
Definition db_reports7 : DB :=
  {| db_users := [Sample.alice; Sample.adam; Sample.dana; Sample.paul; Sample.bob; carol];
     db_skills := db_skills Sample.db0;
     db_resources := db_resources Sample.db0;
     db_reports :=
       [ mkReport "p3" 3; mkReport "p7" 7; mkReport "p1" 1; mkReport "p5" 5;
         {| pr_id := "q9"; pr_employee := "u-dana"; pr_createdAt := 9 |};
         mkReport "p2" 2; mkReport "p6" 6; mkReport "p4" 4 ];
     db_idps := db_idps Sample.db0 |}.

Definition mkWorld (db : DB) (faults : QuerySite → option string)
    (oracle : Payload → OracleOutcome) : World :=
  {| w_db := db; w_faults := faults; w_existsSync := false;
     w_readFileSync := Throw "ENOENT"; w_JSON_parse := Sample.parse0;
     w_oracle := oracle; w_shuffle := reverse |}.

Definition w_reports : World :=
  mkWorld db_reports7 Sample.no_faults (Sample.answers Sample.recs_ok).

Definition req_carol : Request :=
  {| req_user_id := "u-carol"; req_user_company := "acme"; req_targetSkills := None |}.

(** Two stores are down: the reports and, later in the source, the resources. *)
Definition w_two_down : World :=
  mkWorld Sample.db0
    (λ s, if decide (s = QReportFind) then Some "reports unavailable"
          else if decide (s = QResourceFind) then Some "resources unavailable"
          else None)
    (Sample.answers Sample.recs_ok).


(** Two companies whose admins both configured weights; the admin of the
    other company comes first in the store. *)
Definition weights_acme : JSON := JObj [ ("skill_gap", JNum (1 # 1)) ].
Definition weights_globex : JSON := JObj [ ("collaborative", JNum (1 # 1)) ].

Definition mkAdmin (i company : string) (wts : JSON) : User :=
  {| u_id := i; u_name := i; u_company := company; u_role := "admin";
     u_skills := [];
     u_companySettings := Some {| cs_aiWeights := Some wts |} |}.

Definition db_admins : DB :=
  {| db_users := [ mkAdmin "u-gina" "globex" weights_globex; Sample.alice;
                   mkAdmin "u-ada" "acme" weights_acme ];
     db_skills := db_skills Sample.db0;
     db_resources := [];
     db_reports := [];
     db_idps := [] |}.

Definition w_admins : World :=
  mkWorld db_admins Sample.no_faults (Sample.answers []).

(** Pending plans on the dashboard, and a backend that accepts everything
    or nothing. *)
Definition pending3 : list Dashboard.PendingIdp :=
  [ {| Dashboard.pi_id := "i1"; Dashboard.pi_status := "pending" |};
    {| Dashboard.pi_id := "i2"; Dashboard.pi_status := "pending" |};
    {| Dashboard.pi_id := "i3"; Dashboard.pi_status := "pending" |} ].

Definition api_ok : Dashboard.Api := λ _ _ _, Ok tt.
Definition api_down : Dashboard.Api := λ _ _ _, Throw "Network Error".

End SampleMore.

(** * Properties *)

(** ** The [result] monad *)

Lemma bind_Ok_inv {A B} (m : result A) (f : A → result B) (b : B) :
  m ≫= f = Ok b → ∃ a, m = Ok a ∧ f a = Ok b.
Proof. destruct m as [a|e]; simpl; [eauto | discriminate]. Qed.

Lemma query_Ok_inv {A} w s (v v' : A) :
  query w s v = Ok v' → w_faults w s = None ∧ v' = v.
Proof. unfold query. destruct (w_faults w s); [discriminate | by inversion 1]. Qed.

Lemma query_no_fault {A} w s (v : A) : w_faults w s = None → query w s v = Ok v.
Proof. unfold query. by intros ->. Qed.

Lemma query_fault {A} w s (v : A) e : w_faults w s = Some e → query w s v = Throw e.
Proof. unfold query. by intros ->. Qed.

(** Take a successful [bind] apart: name the intermediate value. *)
Ltac bind_inv H x Hx :=
  apply bind_Ok_inv in H; destruct H as (x & Hx & H).

(** ** Truthiness and identifiers *)

Lemma truthy_Some (o : option string) :
  truthy o → ∃ s, o = Some s ∧ s ≠ "".
Proof.
  destruct o as [s|]; simpl; [|done].
  intros H%bool_decide_unpack. eauto.
Qed.

Lemma js_or_truthy (a b : option string) :
  truthy (js_or a b) → (truthy a ∧ js_or a b = a) ∨ (truthy b ∧ js_or a b = b).
Proof.
  unfold js_or. destruct (truthy a) eqn:Ha; intros H.
  - by left.
  - by right.
Qed.

(** A truthy [rId] is the non-empty content of one of the three fields. *)
Lemma rId_field (rec : Rec) :
  has_id rec →
  ∃ i, i ≠ "" ∧ rId rec = Some i ∧
       (rec_resourceId rec = Some i ∨ rec__id rec = Some i ∨ rec_id rec = Some i).
Proof.
  unfold has_id. intros H.
  destruct (truthy_Some _ H) as (i & Hi & Hne).
  exists i. split; [done|]. split; [done|].
  unfold rId in *. apply js_or_truthy in H as [[H1 E1]|[H2 E2]].
  - rewrite E1 in Hi. apply js_or_truthy in H1 as [[_ E]|[_ E]];
      rewrite E in Hi; auto.
  - rewrite E2 in Hi. auto.
Qed.

(** The three fields are tried in the order [resourceId], [_id], [id]. *)
Lemma rId_priority (rec : Rec) :
  (truthy (rec_resourceId rec) → rId rec = rec_resourceId rec) ∧
  (¬ truthy (rec_resourceId rec) → truthy (rec__id rec) → rId rec = rec__id rec) ∧
  (¬ truthy (rec_resourceId rec) → ¬ truthy (rec__id rec) → rId rec = rec_id rec).
Proof.
  unfold rId, js_or.
  destruct (truthy (rec_resourceId rec)) eqn:H1; simpl.
  { rewrite H1. by split_and!. }
  destruct (truthy (rec__id rec)) eqn:H2; by split_and!.
Qed.

Lemma rId_backfill frs rec : rId (backfill frs rec) = rId rec.
Proof.
  unfold backfill. destruct (originalRes frs rec); [|done].
  by destruct (provider_missing rec).
Qed.

(** A candidate's item carries the candidate's identifier in [resourceId];
    an empty identifier is falsy and leaves the item without any. *)
Lemma rId_fallbackRec fr :
  rId (fallbackRec fr) = if decide (fr_id fr = "") then None else Some (fr_id fr).
Proof.
  unfold rId, js_or, fallbackRec; simpl.
  case_decide as H.
  - rewrite bool_decide_eq_false_2; [done|]. intros Hn. by apply Hn.
  - rewrite bool_decide_eq_true_2 by done. simpl.
    by rewrite bool_decide_eq_true_2.
Qed.

Lemma has_id_fallbackRec fr :
  has_id (fallbackRec fr) → rId (fallbackRec fr) = Some (fr_id fr).
Proof.
  unfold has_id. rewrite rId_fallbackRec. by case_decide.
Qed.

(** ** The reconciler: the loop against the worded [keep_first] *)

Section reconciler.
Variable frs : list FormattedResource.

Lemma dedup_step_keep acc (seenIds : gset string) rec i :
  rId rec = Some i → i ≠ "" → i ∉ seenIds →
  dedup_step frs (acc, seenIds) rec
  = ((acc ++ [backfill frs rec])%list, {[ i ]} ∪ seenIds).
Proof.
  intros Hid Hne Hin. unfold dedup_step. rewrite Hid. simpl.
  rewrite bool_decide_eq_true_2 by done.
  by rewrite bool_decide_eq_false_2 by done.
Qed.

Lemma dedup_step_no_id (st : DedupState) rec :
  ¬ has_id rec → dedup_step frs st rec = st.
Proof.
  intros Hid. unfold dedup_step, has_id in *. destruct st as [acc seenIds].
  destruct (rId rec) as [i|]; [|done].
  destruct (truthy (Some i)); [by destruct Hid | done].
Qed.

Lemma dedup_step_seen acc (seenIds : gset string) rec i :
  rId rec = Some i → i ∈ seenIds →
  dedup_step frs (acc, seenIds) rec = (acc, seenIds).
Proof.
  intros Hid Hin. unfold dedup_step. rewrite Hid.
  rewrite (bool_decide_eq_true_2 (i ∈ seenIds)) by done.
  by rewrite andb_false_r.
Qed.

(** The loop, started in any state whose [seenIds] holds the identifiers
    of [seen], appends the backfilled first occurrences. *)
Lemma dedup_fold recs : ∀ (acc : list Rec) (seenIds : gset string) seen,
  (∀ i, i ∈ seenIds ↔ Some i ∈ seen) →
  (foldl (dedup_step frs) (acc, seenIds) recs).1
  = (acc ++ (backfill frs <$> keep_first seen recs))%list.
Proof.
  induction recs as [|rec recs IH]; intros acc seenIds seen Hseen;
    cbn [foldl keep_first].
  { by rewrite app_nil_r. }
  case_decide as Hk.
  - destruct Hk as [Hid Hnew].
    destruct (rId_field _ Hid) as (i & Hne & Hi & _).
    rewrite (dedup_step_keep _ _ _ i); [|done..|].
    2:{ rewrite Hseen, <- Hi. done. }
    rewrite (IH _ _ (rId rec :: seen)).
    { rewrite fmap_cons, <- app_assoc. done. }
    intros j. rewrite elem_of_union, elem_of_singleton, elem_of_cons, Hseen, Hi.
    split; (intros [Hj|Hj]; [left; congruence | by right]).
  - destruct (decide (has_id rec)) as [Hid|Hid].
    + destruct (rId_field _ Hid) as (i & Hne & Hi & _).
      rewrite (dedup_step_seen _ _ _ i); [by apply IH|done|].
      apply Hseen. rewrite <- Hi.
      destruct (decide (rId rec ∈ seen)); [done|]. by destruct Hk.
    + rewrite dedup_step_no_id by done. by apply IH.
Qed.

Lemma uniqueRecs_keep_first recs :
  uniqueRecs frs recs = backfill frs <$> keep_first [] recs.
Proof.
  unfold uniqueRecs. rewrite (dedup_fold recs [] ∅ []); [done|].
  intros i. rewrite elem_of_nil. set_solver.
Qed.
End reconciler.

Lemma keep_first_sublist recs : ∀ seen, keep_first seen recs `sublist_of` recs.
Proof.
  induction recs as [|rec recs IH]; intros seen; simpl; [constructor|].
  case_decide; [apply sublist_skip | apply sublist_cons]; apply IH.
Qed.

Lemma keep_first_has_id recs : ∀ seen rec,
  rec ∈ keep_first seen recs → has_id rec ∧ (rId rec ∉ seen) ∧ rec ∈ recs.
Proof.
  induction recs as [|r recs IH]; intros seen rec; simpl.
  { by intros ?%elem_of_nil. }
  case_decide as Hk.
  - intros [->|Hin]%elem_of_cons.
    + destruct Hk. split_and!; [done..|left].
    + apply IH in Hin as (? & Hn & ?). split_and!; [done| |by right].
      intros ?. apply Hn. by right.
  - intros Hin. apply IH in Hin as (? & ? & ?). split_and!; [done..|by right].
Qed.

Lemma keep_first_NoDup recs : ∀ seen, NoDup (rId <$> keep_first seen recs).
Proof.
  induction recs as [|r recs IH]; intros seen; simpl; [constructor|].
  case_decide; [|apply IH].
  rewrite fmap_cons. constructor; [|apply IH].
  intros (r' & Heq & Hin)%list_elem_of_fmap.
  apply keep_first_has_id in Hin as (_ & Hn & _).
  apply Hn. rewrite Heq. left.
Qed.

(** Every identifier of the input is the identifier of a kept item, unless
    it was seen before. *)
Lemma keep_first_covers recs : ∀ seen rec,
  rec ∈ recs → has_id rec → rId rec ∉ seen →
  rId rec ∈ rId <$> keep_first seen recs.
Proof.
  induction recs as [|r recs IH]; intros seen rec; simpl.
  { by intros ?%elem_of_nil. }
  intros [->|Hin]%elem_of_cons Hid Hseen.
  - rewrite decide_True by done. rewrite fmap_cons. left.
  - case_decide as Hk.
    + rewrite fmap_cons. destruct (decide (rId rec = rId r)) as [->|Hne]; [left|].
      right. apply IH; [done..|]. rewrite elem_of_cons. by intros [?|?].
    + apply IH; done.
Qed.

(** Items without an identifier leave no trace: not in the result, and not
    in what the loop remembers. *)
Lemma keep_first_filter recs : ∀ seen,
  keep_first seen (filter has_id recs) = keep_first seen recs.
Proof.
  induction recs as [|r recs IH]; intros seen; [done|].
  rewrite filter_cons. case_decide as Hid; simpl.
  - case_decide; by rewrite IH.
  - rewrite decide_False; [apply IH|]. by intros [? _].
Qed.

Lemma fmap_rId_backfill frs (l : list Rec) :
  rId <$> (backfill frs <$> l) = rId <$> l.
Proof.
  rewrite <- list_fmap_compose. apply list_fmap_ext. intros ? r _.
  simpl. apply rId_backfill.
Qed.

(** ** Weight resolution never raises *)

Lemma getWeights_cases w company :
  getWeights w company =
    match getWeights_try w company with
    | Ok (Some v) => Ok v
    | _ => Ok DEFAULT_WEIGHTS
    end.
Proof.
  unfold getWeights. by destruct (getWeights_try w company) as [[v|]|e].
Qed.

Lemma getWeights_total w company : ∃ v, getWeights w company = Ok v.
Proof.
  rewrite getWeights_cases.
  destruct (getWeights_try w company) as [[v|]|e]; eauto.
Qed.

(** ** Taking a run of the controller apart *)

Lemma aggregate_Ok_inv w req user agg :
  aggregate w req user = Ok agg →
  let db := w_db w in
  let peers := allUsers db (req_user_id req) (req_user_company req) in
  ∃ uSkills params,
    userSkills db user = Ok uSkills ∧
    (∀ s, s ∈ aggregation_sites → w_faults w s = None) ∧
    getWeights w (u_company user) = Ok params ∧
    agg_formattedResources agg =
      formattedResources
        (allResources db (u_id <$> companyUsers db (req_user_company req))) ∧
    p_resources (agg_payload agg) = agg_formattedResources agg ∧
    peer_data (agg_payload agg) = peerData peers (allIDPs db (u_id <$> peers)) ∧
    goal_text (agg_payload agg) = goalText (latestIdp db (req_user_id req)) ∧
    custom_weights (agg_payload agg) = params ∧
    limit (agg_payload agg) = 10%nat.
Proof.
  unfold aggregate. intros H.
  bind_inv H uSkills HuS.
  bind_inv H latest H1. apply query_Ok_inv in H1 as [F1 ->].
  bind_inv H prs H2. apply query_Ok_inv in H2 as [F2 ->].
  bind_inv H sks H3. apply query_Ok_inv in H3 as [F3 ->].
  bind_inv H cus H4. apply query_Ok_inv in H4 as [F4 ->].
  bind_inv H rss H5. apply query_Ok_inv in H5 as [F5 ->].
  bind_inv H prs' H6. apply query_Ok_inv in H6 as [F6 ->].
  bind_inv H ids H7. apply query_Ok_inv in H7 as [F7 ->].
  bind_inv H params Hp.
  injection H as <-. simpl.
  exists uSkills, params. split_and!; try done.
  intros s Hs. unfold aggregation_sites in Hs.
  repeat (apply elem_of_cons in Hs as [->|Hs]; [done|]).
  by apply elem_of_nil in Hs.
Qed.

(** A fault at one of the aggregation sites makes the aggregation raise. *)
Lemma aggregate_fault w req user s e :
  s ∈ aggregation_sites → w_faults w s = Some e →
  ∃ e', aggregate w req user = Throw e'.
Proof.
  intros Hs Hf.
  destruct (aggregate w req user) as [agg|e'] eqn:Hagg; [|eauto].
  apply aggregate_Ok_inv in Hagg as (? & ? & _ & Hnone & _).
  rewrite (Hnone s Hs) in Hf. discriminate.
Qed.

Lemma getSuggestions_200_inv w req recs :
  getSuggestions w req = R200 recs →
  ∃ user agg input frs,
    w_faults w QUserFindById = None ∧
    User_findById (w_db w) (req_user_id req) = Some user ∧
    aggregate w req user = Ok agg ∧
    dispatch w agg = (Some {| recommendations := Some input |}, frs) ∧
    recs = uniqueRecs frs input.
Proof.
  unfold getSuggestions.
  destruct (getSuggestions_try w req) as [r|e] eqn:Htry; [intros ->|discriminate].
  unfold getSuggestions_try in Htry.
  bind_inv Htry ouser Hq. apply query_Ok_inv in Hq as [Hf ->].
  destruct (User_findById _ _) as [user|] eqn:Hu; [|discriminate].
  bind_inv Htry agg Hagg.
  exists user, agg. unfold finish in Htry.
  destruct (dispatch w agg) as [ai frs].
  destruct ai as [[[input|]]|]; simpl in Htry; try discriminate.
  injection Htry as <-. by exists input, frs.
Qed.

(** The run of a request whose requester is found and whose aggregation
    succeeds. *)
Lemma getSuggestions_aggregated w req user agg :
  w_faults w QUserFindById = None →
  User_findById (w_db w) (req_user_id req) = Some user →
  aggregate w req user = Ok agg →
  getSuggestions w req =
    match finish w agg with
    | Ok r => r
    | Throw e => R500 "Failed to generate suggestions" e
    end.
Proof.
  intros Hf Hu Hagg. unfold getSuggestions, getSuggestions_try.
  rewrite (query_no_fault _ _ _ Hf). simpl. rewrite Hu, Hagg. done.
Qed.

(** Both branches of the dispatch, as the reconciler sees them. *)
Lemma dispatch_oracle_returns w agg body :
  w_oracle w (agg_payload agg) = OracleReturns body →
  dispatch w agg = (body, agg_formattedResources agg).
Proof. unfold dispatch. by intros ->. Qed.

Lemma dispatch_oracle_throws w agg msg :
  w_oracle w (agg_payload agg) = OracleThrows msg →
  dispatch w agg =
    (Some {| recommendations :=
               Some (fallbackRec <$> take 10 (w_shuffle w (agg_formattedResources agg))) |},
     w_shuffle w (agg_formattedResources agg)).
Proof. unfold dispatch. by intros ->. Qed.

(** ** What the reconciler returns *)

Lemma has_id_carries rec : has_id rec ↔ carries_identifier rec.
Proof.
  unfold has_id, carries_identifier, rId, js_or.
  destruct (truthy (rec_resourceId rec)) eqn:H1.
  { rewrite H1. simpl. rewrite H1. split; [by left | done]. }
  destruct (truthy (rec__id rec)) eqn:H2; simpl.
  { rewrite H2. split; [by (right; left) | done]. }
  split; [by (right; right) | by intros [[]|[[]|?]]].
Qed.

Lemma uniqueRecs_length frs input :
  (length (uniqueRecs frs input) ≤ length input)%nat.
Proof.
  rewrite uniqueRecs_keep_first, length_fmap.
  apply sublist_length, keep_first_sublist.
Qed.

Lemma uniqueRecs_elem frs input rec :
  rec ∈ uniqueRecs frs input →
  ∃ rec0, rec0 ∈ input ∧ has_id rec0 ∧ rec = backfill frs rec0.
Proof.
  rewrite uniqueRecs_keep_first.
  intros (rec0 & -> & Hin)%list_elem_of_fmap.
  apply keep_first_has_id in Hin as (? & _ & ?). eauto.
Qed.

(** On the fallback path every returned item stands for a candidate. *)
Lemma fallback_elem (shuffled frs : list FormattedResource) rec :
  shuffled ≡ₚ frs →
  rec ∈ uniqueRecs shuffled (fallbackRec <$> take 10 shuffled) →
  ∃ fr, fr ∈ frs ∧ rec = backfill shuffled (fallbackRec fr) ∧
        rId rec = Some (fr_id fr).
Proof.
  intros Hperm (rec0 & Hin & Hid & ->)%uniqueRecs_elem.
  apply list_elem_of_fmap in Hin as (fr & -> & Hfr).
  apply subseteq_take in Hfr. rewrite Hperm in Hfr.
  exists fr. split_and!; [done..|].
  rewrite rId_backfill. by apply has_id_fallbackRec.
Qed.

(** ** The candidates belong to the requester's company *)

Lemma populate_createdBy_Some db r c :
  populate_createdBy db r = Some c → r_createdBy r = Some (c_id c).
Proof.
  unfold populate_createdBy. destruct (r_createdBy r) as [i|]; [|done]. simpl.
  destruct (find _ _) as [u|] eqn:Hfind; [|done]. simpl.
  intros [= <-]. simpl.
  apply find_some in Hfind as [_ Hu%bool_decide_eq_true]. by rewrite Hu.
Qed.

Lemma populate_createdBy_found db r u :
  u ∈ db_users db → r_createdBy r = Some (u_id u) →
  ∃ c, populate_createdBy db r = Some c ∧ c_id c = u_id u.
Proof.
  intros Hin Hby. unfold populate_createdBy. rewrite Hby. simpl.
  destruct (find _ _) as [u'|] eqn:Hfind; simpl.
  - eexists. split; [done|]. simpl.
    by apply find_some in Hfind as [_ Hu%bool_decide_eq_true].
  - apply list_elem_of_In in Hin.
    apply (find_none _ _ Hfind) in Hin.
    by apply bool_decide_eq_false in Hin.
Qed.

Lemma candidates_elem db company fr :
  fr ∈ formattedResources (allResources db (u_id <$> companyUsers db company)) →
  ∃ r u, r ∈ db_resources db ∧ u ∈ db_users db ∧
         r_createdBy r = Some (u_id u) ∧ u_company u = company ∧
         fr = formatResource (r, populate_createdBy db r).
Proof.
  unfold formattedResources, allResources.
  intros (rc & -> & Hrc)%list_elem_of_fmap.
  apply list_elem_of_fmap in Hrc as (r & -> & Hr).
  apply list_elem_of_filter in Hr as [Hby Hr].
  unfold createdBy_in in Hby. destruct (r_createdBy r) as [i|] eqn:Hi; [|done].
  apply list_elem_of_fmap in Hby as (u & -> & Hu).
  apply list_elem_of_filter in Hu as [Hc Hu].
  by exists r, u.
Qed.

Lemma foreign_not_candidate db company r fr :
  foreign_resource db company r →
  fr ∈ formattedResources (allResources db (u_id <$> companyUsers db company)) →
  fr ≠ formatResource (r, populate_createdBy db r).
Proof.
  intros Hforeign (r' & u & _ & Hu & Hby & Hc & ->)%candidates_elem Heq.
  destruct (populate_createdBy_found db r' u Hu Hby) as (c & Hpop & Hcid).
  assert (Hsame : populate_createdBy db r = Some c).
  { apply (f_equal fr_createdBy) in Heq. simpl in Heq. by rewrite <- Heq. }
  apply populate_createdBy_Some in Hsame. rewrite Hcid in Hsame.
  by apply (Hforeign u).
Qed.

(** ** The latest eligible plan *)

Lemma goal_statuses_spec s :
  s ∈ goal_statuses ↔ s = "draft" ∨ s = "pending" ∨ s = "approved".
Proof.
  unfold goal_statuses. rewrite !elem_of_cons, elem_of_nil. tauto.
Qed.

Lemma eligible_plan_filter db userId p :
  eligible_plan db userId p ↔
  p ∈ filter (λ i, idp_employee i = userId ∧ idp_status i ∈ goal_statuses) (db_idps db).
Proof.
  unfold eligible_plan. rewrite list_elem_of_filter, goal_statuses_spec. tauto.
Qed.

Lemma latestIdp_None db userId :
  latestIdp db userId = None → ∀ p, ¬ eligible_plan db userId p.
Proof.
  unfold latestIdp. intros Hhead p Hp%eligible_plan_filter.
  rewrite <- (merge_sort_Permutation idp_newer_first) in Hp.
  destruct (merge_sort _ _); [by apply elem_of_nil in Hp | done].
Qed.

Lemma latestIdp_Some db userId p :
  latestIdp db userId = Some p →
  eligible_plan db userId p ∧
  ∀ q, eligible_plan db userId q → (idp_createdAt q ≤ idp_createdAt p)%Z.
Proof.
  unfold latestIdp. intros [rest Hsorted]%head_Some.
  pose proof (StronglySorted_merge_sort idp_newer_first
    (filter (λ i, idp_employee i = userId ∧ idp_status i ∈ goal_statuses) (db_idps db)))
    as Hss.
  pose proof (merge_sort_Permutation idp_newer_first
    (filter (λ i, idp_employee i = userId ∧ idp_status i ∈ goal_statuses) (db_idps db)))
    as Hperm.
  rewrite Hsorted in Hss, Hperm.
  split.
  - apply eligible_plan_filter. rewrite <- Hperm. left.
  - intros q Hq%eligible_plan_filter. rewrite <- Hperm in Hq.
    apply elem_of_cons in Hq as [->|Hq]; [lia|].
    apply StronglySorted_inv in Hss as [_ Hall].
    rewrite Forall_forall in Hall. by apply Hall.
Qed.

(** ** Provider attribution *)

Lemma populate_createdBy_user db r c :
  populate_createdBy db r = Some c →
  ∃ u, u ∈ db_users db ∧ r_createdBy r = Some (u_id u) ∧
       c = {| c_id := u_id u; c_name := u_name u |}.
Proof.
  unfold populate_createdBy. destruct (r_createdBy r) as [i|]; [|done]. simpl.
  destruct (find _ _) as [u|] eqn:Hfind; [|done]. simpl.
  intros [= <-]. exists u.
  apply find_some in Hfind as [Hin Hu%bool_decide_eq_true].
  split_and!; [by apply list_elem_of_In | by rewrite Hu | done].
Qed.

Lemma provider_known_false (p : option string) :
  p = None ∨ p = Some "Unknown" → provider_known p = false.
Proof.
  unfold provider_known. intros [->| ->]; [done|].
  rewrite (bool_decide_eq_false_2 (Some "Unknown" ≠ Some "Unknown")); [|by intros ?].
  apply andb_false_r.
Qed.

Lemma provider_missing_true rec :
  rec_provider rec = None ∨ rec_provider rec = Some "Unknown" → provider_missing rec.
Proof. unfold provider_missing. by intros [->| ->]. Qed.

Lemma originalRes_Some frs rec fr :
  originalRes frs rec = Some fr → fr ∈ frs ∧ Some (fr_id fr) = rId rec.
Proof.
  unfold originalRes. intros [Hin Heq%bool_decide_eq_true]%find_some.
  split; [by apply list_elem_of_In | done].
Qed.

Lemma originalRes_found frs rec fr :
  fr ∈ frs → Some (fr_id fr) = rId rec → ∃ fr', originalRes frs rec = Some fr'.
Proof.
  intros Hin Heq. unfold originalRes.
  destruct (find _ _) as [fr'|] eqn:Hfind; [eauto|].
  apply list_elem_of_In in Hin. apply (find_none _ _ Hfind) in Hin.
  by apply bool_decide_eq_false in Hin.
Qed.

Lemma backfill_provider frs rec fr :
  originalRes frs rec = Some fr → provider_missing rec →
  rec_provider (backfill frs rec) = fr_provider fr.
Proof.
  intros Horig Hmiss. unfold backfill. rewrite Horig.
  by destruct (provider_missing rec).
Qed.

Lemma backfill_untouched frs rec :
  ¬ provider_missing rec → backfill frs rec = rec.
Proof.
  intros Hmiss. unfold backfill. destruct (originalRes frs rec); [|done].
  by destruct (provider_missing rec).
Qed.

(** Documents with distinct identifiers are told apart by them. *)
Lemma NoDup_fmap_eq {A B} (f : A → B) (l : list A) x y :
  NoDup (f <$> l) → x ∈ l → y ∈ l → f x = f y → x = y.
Proof.
  induction l as [|a l IH]; [by intros _ ?%elem_of_nil|].
  rewrite fmap_cons. intros [Hnotin Hnd]%NoDup_cons.
  intros [->|Hin]%elem_of_cons [->|Hin']%elem_of_cons Heq; [done| | |by apply IH].
  - destruct Hnotin. rewrite Heq. by apply list_elem_of_fmap_2.
  - destruct Hnotin. rewrite <- Heq. by apply list_elem_of_fmap_2.
Qed.

(** ** Peer resources *)

Lemma set_add_elem x s y : y ∈ set_add x s ↔ y = x ∨ y ∈ s.
Proof.
  unfold set_add. case_bool_decide as Hin.
  - split; [by right | by intros [->|?]].
  - rewrite elem_of_app, list_elem_of_singleton. tauto.
Qed.

Lemma set_add_NoDup x s : NoDup s → NoDup (set_add x s).
Proof.
  unfold set_add. case_bool_decide as Hin; [done|].
  intros Hnd. apply NoDup_app. split_and!; [done| |apply NoDup_singleton].
  intros y Hy ->%list_elem_of_singleton. done.
Qed.

Lemma foldl_set_add_elem rs : ∀ s y,
  y ∈ foldl (λ s rId, set_add rId s) s rs ↔ y ∈ s ∨ y ∈ rs.
Proof.
  induction rs as [|r rs IH]; intros s y; simpl.
  - rewrite elem_of_nil. tauto.
  - rewrite IH, set_add_elem, elem_of_cons. tauto.
Qed.

Lemma foldl_set_add_NoDup rs : ∀ s,
  NoDup s → NoDup (foldl (λ s rId, set_add rId s) s rs).
Proof.
  induction rs as [|r rs IH]; intros s Hnd; simpl; [done|].
  by apply IH, set_add_NoDup.
Qed.

Lemma userResourcesMap_step_lookup (m : gmap string (list string)) idp k :
  default [] (userResourcesMap_step m idp !! k) =
    if decide (idp_employee idp = k)
    then foldl (λ s rId, set_add rId s) (default [] (m !! k)) (idp_recommendedResources idp)
    else default [] (m !! k).
Proof.
  unfold userResourcesMap_step. case_decide as Hk.
  - subst k. rewrite lookup_alter_eq.
    destruct (m !! idp_employee idp) as [s|] eqn:Hm.
    + by rewrite Hm.
    + by rewrite lookup_insert_eq.
  - rewrite lookup_alter_ne by done.
    destruct (m !! idp_employee idp); [done|].
    by rewrite lookup_insert_ne.
Qed.

(** The set the loop leaves for an employee: what was there, and what the
    plans of that employee recommend. *)
Lemma userResourcesMap_fold idps : ∀ (m : gmap string (list string)) k,
  let s := default [] (foldl userResourcesMap_step m idps !! k) in
  (NoDup (default [] (m !! k)) → NoDup s) ∧
  ∀ rid, rid ∈ s ↔
         rid ∈ default [] (m !! k) ∨
         ∃ idp, idp ∈ idps ∧ idp_employee idp = k ∧
                rid ∈ idp_recommendedResources idp.
Proof.
  induction idps as [|idp idps IH]; intros m k; simpl.
  { split; [done|]. intros rid. split; [by left|].
    intros [?|(? & []%elem_of_nil & _)]. done. }
  destruct (IH (userResourcesMap_step m idp) k) as [IHnd IHin].
  rewrite userResourcesMap_step_lookup in IHnd, IHin.
  split.
  - intros Hnd. apply IHnd. case_decide; [|done].
    by apply foldl_set_add_NoDup.
  - intros rid. rewrite IHin. case_decide as Hk.
    + rewrite foldl_set_add_elem. split.
      * intros [[?|?]|(i & ? & ? & ?)]; [by left| |].
        -- right. exists idp. split_and!; [left|done..].
        -- right. exists i. split_and!; [by right|done..].
      * intros [?|(i & [->|?]%elem_of_cons & ? & ?)].
        -- by left; left.
        -- by left; right.
        -- right. by exists i.
    + split.
      * intros [?|(i & ? & ? & ?)]; [by left|].
        right. exists i. split_and!; [by right|done..].
      * intros [?|(i & [->|?]%elem_of_cons & ? & ?)]; [by left|done|].
        right. by exists i.
Qed.

Lemma userResourcesMap_spec idps k :
  let s := default [] (userResourcesMap idps !! k) in
  NoDup s ∧
  ∀ rid, rid ∈ s ↔
         ∃ idp, idp ∈ idps ∧ idp_employee idp = k ∧
                rid ∈ idp_recommendedResources idp.
Proof.
  unfold userResourcesMap.
  destruct (userResourcesMap_fold idps ∅ k) as [Hnd Hin].
  rewrite lookup_empty in Hnd, Hin. simpl in *.
  split; [apply Hnd, NoDup_nil_2|].
  intros rid. rewrite Hin, elem_of_nil. tauto.
Qed.

Lemma peer_statuses_spec s :
  s ∈ peer_statuses ↔ s = "approved" ∨ s = "completed".
Proof.
  unfold peer_statuses. rewrite !elem_of_cons, elem_of_nil. tauto.
Qed.

Lemma allUsers_spec db req u :
  u ∈ allUsers db (req_user_id req) (req_user_company req) ↔ is_peer db req u.
Proof. unfold allUsers, is_peer. rewrite list_elem_of_filter. tauto. Qed.

(** The resources listed for a peer are those of the approved and completed
    plans of that peer. *)
Lemma peer_resources_spec db req u :
  is_peer db req u →
  let peers := allUsers db (req_user_id req) (req_user_company req) in
  let s := default [] (userResourcesMap (allIDPs db (u_id <$> peers)) !! u_id u) in
  NoDup s ∧ ∀ rid, rid ∈ s ↔ consumed db (u_id u) rid.
Proof.
  intros Hpeer peers s.
  destruct (userResourcesMap_spec (allIDPs db (u_id <$> peers)) (u_id u)) as [Hnd Hin].
  split; [done|]. intros rid. subst s. rewrite Hin. unfold consumed, allIDPs.
  split.
  - intros (idp & [[Hst _] Hidp]%list_elem_of_filter & Hemp & Hrid).
    exists idp. by rewrite <- peer_statuses_spec.
  - intros (idp & Hidp & Hemp & Hst & Hrid).
    exists idp. split_and!; [|done..].
    apply list_elem_of_filter. split_and!; [by apply peer_statuses_spec| |done].
    rewrite Hemp. apply list_elem_of_fmap_2. by apply allUsers_spec.
Qed.

(** * The claims *)

(** C1. On every successful response, from the oracle or from the fallback,
    the resolved identifiers of the returned items are pairwise distinct,
    the identifier of an item being resolved from [resourceId], then [_id],
    then [id]. The returned list is the list the dispatch produced, walked
    once in its order: the first item of each identifier is kept (with its
    provider backfilled), later ones are discarded, the order of the kept
    ones is that of the input, and every identifier of the input is present
    in the result. *)
Theorem returned_identifiers_unique w req recs :
  getSuggestions w req = R200 recs →
  NoDup (rId <$> recs) ∧
  (∀ rec,
     (truthy (rec_resourceId rec) → rId rec = rec_resourceId rec) ∧
     (¬ truthy (rec_resourceId rec) → truthy (rec__id rec) → rId rec = rec__id rec) ∧
     (¬ truthy (rec_resourceId rec) → ¬ truthy (rec__id rec) → rId rec = rec_id rec)) ∧
  ∃ user agg input frs,
    User_findById (w_db w) (req_user_id req) = Some user ∧
    aggregate w req user = Ok agg ∧
    dispatch w agg = (Some {| recommendations := Some input |}, frs) ∧
    recs = backfill frs <$> keep_first [] input ∧
    keep_first [] input `sublist_of` input ∧
    (∀ rec, rec ∈ input → has_id rec → rId rec ∈ rId <$> recs).
Proof.
  intros (user & agg & input & frs & _ & Hu & Hagg & Hd & ->)%getSuggestions_200_inv.
  rewrite uniqueRecs_keep_first, fmap_rId_backfill.
  split; [apply keep_first_NoDup|]. split; [apply rId_priority|].
  exists user, agg, input, frs. split_and!; try done.
  - apply keep_first_sublist.
  - intros rec Hin Hid. apply keep_first_covers; [done..|]. apply not_elem_of_nil.
Qed.

Lemma returned_identifiers_unique_witness :
  getSuggestions Sample.w_ok Sample.req0 = R200 Sample.returned_ok ∧
  NoDup (rId <$> Sample.returned_ok).
Proof.
  assert (H : getSuggestions Sample.w_ok Sample.req0 = R200 Sample.returned_ok)
    by (vm_compute; reflexivity).
  split; [exact H|].
  exact (proj1 (returned_identifiers_unique _ _ _ H)).
Defined.

(** C10. Every item of a successful response carries a non-empty identifier
    in [resourceId], [_id] or [id]; an item of the dispatched list whose
    three fields are all absent or empty is dropped altogether: the response
    is the one the same list without those items would have given. *)
Theorem returned_items_carry_identifier w req recs :
  getSuggestions w req = R200 recs →
  Forall (λ rec, ∃ i, i ≠ "" ∧
            (rec_resourceId rec = Some i ∨ rec__id rec = Some i ∨ rec_id rec = Some i))
         recs ∧
  ∃ user agg input frs,
    User_findById (w_db w) (req_user_id req) = Some user ∧
    aggregate w req user = Ok agg ∧
    dispatch w agg = (Some {| recommendations := Some input |}, frs) ∧
    recs = uniqueRecs frs (filter carries_identifier input) ∧
    (∀ rec, rec ∈ input → ¬ carries_identifier rec → backfill frs rec ∉ recs).
Proof.
  intros (user & agg & input & frs & _ & Hu & Hagg & Hd & ->)%getSuggestions_200_inv.
  assert (Hall : ∀ rec, rec ∈ uniqueRecs frs input → has_id rec).
  { intros rec (rec0 & _ & Hid & ->)%uniqueRecs_elem.
    unfold has_id. by rewrite rId_backfill. }
  split.
  - apply Forall_forall. intros rec Hin.
    destruct (rId_field rec (Hall rec Hin)) as (i & ? & _ & ?). eauto.
  - exists user, agg, input, frs. split_and!; try done.
    + rewrite !uniqueRecs_keep_first.
      rewrite <- (keep_first_filter input).
      do 2 f_equal. apply list_filter_iff. intros rec. apply has_id_carries.
    + intros rec _ Hno Hin. apply Hall in Hin.
      apply Hno, has_id_carries. unfold has_id in *. by rewrite rId_backfill in Hin.
Qed.

Lemma returned_items_carry_identifier_witness :
  getSuggestions Sample.w_ok Sample.req0 = R200 Sample.returned_ok ∧
  Forall (λ rec, ∃ i, i ≠ "" ∧
            (rec_resourceId rec = Some i ∨ rec__id rec = Some i ∨ rec_id rec = Some i))
         Sample.returned_ok.
Proof.
  assert (H : getSuggestions Sample.w_ok Sample.req0 = R200 Sample.returned_ok)
    by (vm_compute; reflexivity).
  split; [exact H|].
  exact (proj1 (returned_items_carry_identifier _ _ _ H)).
Defined.

(** C3, as stated, fails on the oracle path: the controller returns the
    eleven distinct items an oracle answers with. *)
Lemma oracle_list_not_truncated :
  getSuggestions Sample.w_eleven Sample.req0 = R200 Sample.recs_eleven ∧
  ¬ (length Sample.recs_eleven ≤ 10)%nat.
Proof.
  split; [vm_compute; reflexivity|]. simpl. lia.
Qed.

(** C3, amended. The payload asks the oracle for 10 items. On the fallback
    path the sample is cut to 10 candidates before reconciliation, so at
    most 10 items are returned; on the oracle path the oracle's list is
    reconciled as it is, so no more items are returned than the oracle
    sent. Reconciliation only removes items: it never fills up again. *)
Theorem returned_length_bound w req recs :
  getSuggestions w req = R200 recs →
  ∃ user agg,
    User_findById (w_db w) (req_user_id req) = Some user ∧
    aggregate w req user = Ok agg ∧
    limit (agg_payload agg) = 10%nat ∧
    match w_oracle w (agg_payload agg) with
    | OracleThrows _ =>
        let shuffled := w_shuffle w (agg_formattedResources agg) in
        recs = uniqueRecs shuffled (fallbackRec <$> take 10 shuffled) ∧
        (length recs ≤ 10)%nat
    | OracleReturns body =>
        ∃ input,
          body = Some {| recommendations := Some input |} ∧
          recs = uniqueRecs (agg_formattedResources agg) input ∧
          (length recs ≤ length input)%nat
    end.
Proof.
  intros (user & agg & input & frs & _ & Hu & Hagg & Hd & ->)%getSuggestions_200_inv.
  exists user, agg. split_and!; try done.
  { by apply aggregate_Ok_inv in Hagg as (? & ? & _ & _ & _ & _ & _ & _ & _ & _ & ?). }
  unfold dispatch in Hd.
  destruct (w_oracle w (agg_payload agg)) as [msg|body].
  - injection Hd as <- <-. split; [done|].
    etrans; [apply uniqueRecs_length|].
    rewrite length_fmap, length_take. lia.
  - injection Hd as -> <-. exists input. split_and!; try done.
    apply uniqueRecs_length.
Qed.

Lemma returned_length_bound_witness :
  getSuggestions Sample.w_down Sample.req0 = R200 Sample.returned_down ∧
  ∃ user agg,
    User_findById (w_db Sample.w_down) (req_user_id Sample.req0) = Some user ∧
    aggregate Sample.w_down Sample.req0 user = Ok agg ∧
    limit (agg_payload agg) = 10%nat ∧
    match w_oracle Sample.w_down (agg_payload agg) with
    | OracleThrows _ =>
        let shuffled := w_shuffle Sample.w_down (agg_formattedResources agg) in
        Sample.returned_down = uniqueRecs shuffled (fallbackRec <$> take 10 shuffled) ∧
        (length Sample.returned_down ≤ 10)%nat
    | OracleReturns body =>
        ∃ input,
          body = Some {| recommendations := Some input |} ∧
          Sample.returned_down = uniqueRecs (agg_formattedResources agg) input ∧
          (length Sample.returned_down ≤ length input)%nat
    end.
Proof.
  assert (H : getSuggestions Sample.w_down Sample.req0 = R200 Sample.returned_down)
    by (vm_compute; reflexivity).
  split; [exact H|].
  exact (returned_length_bound _ _ _ H).
Defined.

(** C2, as stated, fails for malformed data: when the oracle answers with a
    body that holds no list of recommendations, nothing is sampled and the
    caller gets the server-side error. *)
Lemma malformed_body_is_an_error :
  (∀ p, oracle_failed (w_oracle Sample.w_malformed p)) ∧
  getSuggestions Sample.w_malformed Sample.req0
  = R500 "Failed to generate suggestions"
         "Cannot read properties of undefined (reading 'length')".
Proof. split; [intros p; exact I | vm_compute; reflexivity]. Qed.

(** C2, amended. When the call to the oracle rejects (unreachable, timeout,
    error answer), a request that reached the call is answered with status
    200: at most 10 items, each one standing for a candidate of the
    requester's tenant, taken from the front of the shuffled candidates;
    with no candidate at all the answer is the empty list. *)
Theorem oracle_rejection_falls_back w req user agg msg :
  w_faults w QUserFindById = None →
  User_findById (w_db w) (req_user_id req) = Some user →
  aggregate w req user = Ok agg →
  w_oracle w (agg_payload agg) = OracleThrows msg →
  (∀ l, w_shuffle w l ≡ₚ l) →
  ∃ recs,
    getSuggestions w req = R200 recs ∧
    recs = (let shuffled := w_shuffle w (agg_formattedResources agg) in
            uniqueRecs shuffled (fallbackRec <$> take 10 shuffled)) ∧
    (length recs ≤ 10)%nat ∧
    (∀ rec, rec ∈ recs →
       ∃ fr, fr ∈ agg_formattedResources agg ∧
             rec = backfill (w_shuffle w (agg_formattedResources agg)) (fallbackRec fr) ∧
             rId rec = Some (fr_id fr)) ∧
    (agg_formattedResources agg = [] → recs = []).
Proof.
  intros Hf Hu Hagg Ho Hperm.
  eexists. split.
  { rewrite (getSuggestions_aggregated _ _ _ _ Hf Hu Hagg).
    unfold finish. rewrite (dispatch_oracle_throws _ _ _ Ho). reflexivity. }
  simpl. split_and!; [done| | |].
  - etrans; [apply uniqueRecs_length|]. rewrite length_fmap, length_take. lia.
  - intros rec Hin. by apply fallback_elem.
  - intros Hnil. rewrite Hnil.
    rewrite (proj1 (Permutation_nil_r _) (Hperm [])). reflexivity.
Qed.

Lemma oracle_rejection_falls_back_witness :
  ∃ recs,
    getSuggestions Sample.w_down Sample.req0 = R200 recs ∧
    recs = Sample.returned_down ∧
    (length recs ≤ 10)%nat.
Proof.
  destruct (oracle_rejection_falls_back Sample.w_down Sample.req0 Sample.alice
              Sample.agg0 "ECONNREFUSED")
    as (recs & Hrun & Heq & Hlen & _).
  - reflexivity.
  - vm_compute; reflexivity.
  - vm_compute; reflexivity.
  - reflexivity.
  - intros l. apply reverse_Permutation.
  - exists recs. split_and!; [exact Hrun| |exact Hlen].
    rewrite Heq. vm_compute. reflexivity.
Defined.

(** C4, as stated, fails on the oracle path: the item an oracle answers
    with is returned although it names a resource created by a user of
    another company. *)
Lemma foreign_item_returned :
  Sample.rB ∈ db_resources (w_db Sample.w_foreign) ∧
  foreign_resource (w_db Sample.w_foreign) (req_user_company Sample.req0) Sample.rB ∧
  ∃ rec, getSuggestions Sample.w_foreign Sample.req0 = R200 [rec] ∧
         rId rec = Some (r_id Sample.rB).
Proof.
  split_and!.
  - vm_compute. do 2 right. left.
  - intros u Hu. vm_compute in Hu.
    repeat (apply elem_of_cons in Hu as [->|Hu]; [by vm_compute|]).
    by apply elem_of_nil in Hu.
  - eexists. split; vm_compute; reflexivity.
Qed.

(** C4, amended. Every candidate sent to the oracle is a stored resource
    created by a user of the requester's company, and no resource of
    another tenant is among the candidates. On the fallback path every
    returned item stands for one of these candidates. On the oracle path
    the returned items are the oracle's own items, kept by identifier and
    not checked against the candidates: they name candidates only when the
    oracle's items do. *)
Theorem tenant_isolation w req user agg :
  w_faults w QUserFindById = None →
  User_findById (w_db w) (req_user_id req) = Some user →
  aggregate w req user = Ok agg →
  let db := w_db w in
  let company := req_user_company req in
  let candidates := p_resources (agg_payload agg) in
  (∀ fr, fr ∈ candidates →
     ∃ r u, r ∈ db_resources db ∧ u ∈ db_users db ∧
            r_createdBy r = Some (u_id u) ∧ u_company u = company ∧
            fr = formatResource (r, populate_createdBy db r)) ∧
  (∀ r, r ∈ db_resources db → foreign_resource db company r →
        formatResource (r, populate_createdBy db r) ∉ candidates) ∧
  (∀ msg recs,
     w_oracle w (agg_payload agg) = OracleThrows msg →
     (∀ l, w_shuffle w l ≡ₚ l) →
     getSuggestions w req = R200 recs →
     ∀ rec, rec ∈ recs → ∃ fr, fr ∈ candidates ∧ rId rec = Some (fr_id fr)) ∧
  (∀ body recs,
     w_oracle w (agg_payload agg) = OracleReturns body →
     getSuggestions w req = R200 recs →
     ∃ input,
       body = Some {| recommendations := Some input |} ∧
       (∀ rec, rec ∈ recs → ∃ rec0, rec0 ∈ input ∧ rId rec = rId rec0) ∧
       ((∀ rec0, rec0 ∈ input → has_id rec0 →
           ∃ fr, fr ∈ candidates ∧ rId rec0 = Some (fr_id fr)) →
        ∀ rec, rec ∈ recs → ∃ fr, fr ∈ candidates ∧ rId rec = Some (fr_id fr))).
Proof.
  intros Hf Hu Hagg db company candidates.
  pose proof (getSuggestions_aggregated _ _ _ _ Hf Hu Hagg) as Hrun.
  apply aggregate_Ok_inv in Hagg as (_ & _ & _ & _ & _ & Hfr & Hp & _).
  subst candidates. rewrite Hp, Hfr. unfold finish in Hrun.
  split_and!.
  - intros fr. apply candidates_elem.
  - intros r _ Hforeign Hin.
    by apply (foreign_not_candidate _ _ _ _ Hforeign Hin).
  - intros msg recs Ho Hperm Hrecs rec Hin.
    rewrite (dispatch_oracle_throws _ _ _ Ho) in Hrun. simpl in Hrun.
    rewrite Hrun in Hrecs. injection Hrecs as <-.
    apply (fallback_elem _ (agg_formattedResources agg)) in Hin
      as (fr & Hfrin & _ & Hid); [|done].
    exists fr. by rewrite <- Hfr.
  - intros body recs Ho Hrecs.
    rewrite (dispatch_oracle_returns _ _ _ Ho) in Hrun.
    destruct body as [[[input|]]|]; simpl in Hrun;
      rewrite Hrun in Hrecs; try discriminate.
    injection Hrecs as <-. exists input.
    assert (Helem : ∀ rec, rec ∈ uniqueRecs (agg_formattedResources agg) input →
                           ∃ rec0, rec0 ∈ input ∧ has_id rec0 ∧ rId rec = rId rec0).
    { intros rec (rec0 & ? & ? & ->)%uniqueRecs_elem.
      exists rec0. by rewrite rId_backfill. }
    split_and!; [done| |].
    + intros rec (rec0 & ? & _ & ?)%Helem. eauto.
    + intros Hnames rec (rec0 & Hin0 & Hid0 & Heq)%Helem.
      destruct (Hnames rec0 Hin0 Hid0) as (fr & ? & ?).
      exists fr. split; [done|congruence].
Qed.

Lemma tenant_isolation_witness :
  (∀ fr, fr ∈ Sample.candidates0 →
     ∃ r u, r ∈ db_resources Sample.db0 ∧ u ∈ db_users Sample.db0 ∧
            r_createdBy r = Some (u_id u) ∧ u_company u = "acme" ∧
            fr = formatResource (r, populate_createdBy Sample.db0 r)) ∧
  (formatResource (Sample.rB, populate_createdBy Sample.db0 Sample.rB)
     ∉ Sample.candidates0) ∧
  (∀ rec, rec ∈ Sample.returned_down →
     ∃ fr, fr ∈ Sample.candidates0 ∧ rId rec = Some (fr_id fr)).
Proof.
  destruct (tenant_isolation Sample.w_down Sample.req0 Sample.alice Sample.agg0)
    as (Hcand & Hforeign & Hfallback & _).
  - reflexivity.
  - vm_compute; reflexivity.
  - vm_compute; reflexivity.
  - split_and!; [exact Hcand| |].
    + apply Hforeign.
      * vm_compute. do 2 right. left.
      * intros u Hu. vm_compute in Hu.
        repeat (apply elem_of_cons in Hu as [->|Hu]; [by vm_compute|]).
        by apply elem_of_nil in Hu.
    + apply (Hfallback "ECONNREFUSED").
      * reflexivity.
      * intros l. apply reverse_Permutation.
      * vm_compute; reflexivity.
Defined.

(** C5, as stated, fails for an error in the first tier: when the user
    store is unavailable the resolver does not go on to the legacy file,
    well-formed as it may be, but straight to the defaults. *)
Lemma store_error_skips_legacy_file :
  tier_admin Sample.w_store_down "acme" = Throw "store unavailable" ∧
  tier_legacy Sample.w_store_down = Ok (Some (JObj [])) ∧
  resolve_weights_spec Sample.w_store_down "acme" = JObj [] ∧
  getWeights Sample.w_store_down "acme" = Ok DEFAULT_WEIGHTS ∧
  getWeights Sample.w_store_down "acme"
    ≠ Ok (resolve_weights_spec Sample.w_store_down "acme").
Proof. split_and!; [vm_compute; reflexivity..|vm_compute; discriminate]. Qed.

(** C5, amended. Weight resolution never raises. When the lookup of the
    admin account does not fail, the tiers are tried in order, the first
    one that yields a configuration wins and nothing is merged: the admin's
    weights, else the parsed legacy file when it exists and reads and
    parses without error, else the hard-coded defaults. When the lookup of
    the admin account fails, the result is the hard-coded defaults, whatever
    the legacy file holds. With no admin weights and no legacy file the
    result is exactly the hard-coded defaults. *)
Theorem weight_resolution_total w company :
  (∃ v, getWeights w company = Ok v) ∧
  (w_faults w QAdminFindOne = None →
     getWeights w company = Ok (resolve_weights_spec w company)) ∧
  (∀ cfg, tier_admin w company = Ok (Some cfg) → getWeights w company = Ok cfg) ∧
  (∀ cfg, tier_admin w company = Ok None → tier_legacy w = Ok (Some cfg) →
          getWeights w company = Ok cfg) ∧
  (∀ e, tier_admin w company = Ok None → tier_legacy w = Throw e →
        getWeights w company = Ok DEFAULT_WEIGHTS) ∧
  (∀ e, w_faults w QAdminFindOne = Some e →
        getWeights w company = Ok DEFAULT_WEIGHTS) ∧
  (admin_aiWeights (User_findOne_admin (w_db w) company) = None →
   w_existsSync w = false →
   getWeights w company = Ok DEFAULT_WEIGHTS).
Proof.
  split; [apply getWeights_total|].
  rewrite getWeights_cases.
  unfold resolve_weights_spec, getWeights_try, tier_admin, tier_legacy, query.
  destruct (w_faults w QAdminFindOne) as [e|]; simpl.
  { by split_and!. }
  destruct (admin_aiWeights _) as [wts|]; simpl.
  { split_and!; try done. by intros cfg [= ->]. }
  destruct (w_existsSync w); simpl; [|by split_and!].
  destruct (w_readFileSync w) as [txt|e]; simpl; [|by split_and!].
  destruct (w_JSON_parse w txt) as [cfg|e]; simpl; [|by split_and!].
  split_and!; try done. by intros ? _ [= ->].
Qed.

Lemma weight_resolution_total_witness :
  getWeights Sample.w_store_down "acme" = Ok DEFAULT_WEIGHTS ∧
  getWeights Sample.w_ok "acme" = Ok DEFAULT_WEIGHTS ∧
  getWeights Sample.w_ok "acme" = Ok (resolve_weights_spec Sample.w_ok "acme").
Proof.
  split_and!.
  - destruct (weight_resolution_total Sample.w_store_down "acme")
      as (_ & _ & _ & _ & _ & H & _).
    apply (H "store unavailable"). reflexivity.
  - destruct (weight_resolution_total Sample.w_ok "acme")
      as (_ & _ & _ & _ & _ & _ & H).
    apply H; reflexivity.
  - destruct (weight_resolution_total Sample.w_ok "acme") as (_ & H & _).
    apply H. reflexivity.
Defined.

(** C9. A requester whose profile the store does not hold (the lookup
    itself succeeding) gets the not-found answer, whatever the oracle or
    the fallback would do; nothing else yields a not-found answer. Every
    failure raised anywhere else - the profile lookup rejecting, a store
    call of the aggregation rejecting, a dangling skill reference, an
    unusable body from the oracle - yields the generic server-side answer,
    which carries no recommendations; and a 200 answer only comes out of a
    run that raised nothing. *)
Theorem not_found_and_unexpected_failures w req :
  let found := User_findById (w_db w) (req_user_id req) in
  (w_faults w QUserFindById = None → found = None →
     getSuggestions w req = R404 "User not found") ∧
  (∀ m, getSuggestions w req = R404 m →
        w_faults w QUserFindById = None ∧ found = None ∧ m = "User not found") ∧
  (∀ m e, getSuggestions w req = R500 m e ↔
          getSuggestions_try w req = Throw e ∧ m = "Failed to generate suggestions") ∧
  (∀ e, w_faults w QUserFindById = Some e →
        getSuggestions w req = R500 "Failed to generate suggestions" e) ∧
  (∀ user s e, w_faults w QUserFindById = None → found = Some user →
               s ∈ aggregation_sites → w_faults w s = Some e →
               ∃ e', getSuggestions w req = R500 "Failed to generate suggestions" e') ∧
  (∀ user e, w_faults w QUserFindById = None → found = Some user →
             userSkills (w_db w) user = Throw e →
             getSuggestions w req = R500 "Failed to generate suggestions" e) ∧
  (∀ user agg e, w_faults w QUserFindById = None → found = Some user →
                 aggregate w req user = Ok agg → finish w agg = Throw e →
                 getSuggestions w req = R500 "Failed to generate suggestions" e) ∧
  (∀ recs, getSuggestions w req = R200 recs →
           getSuggestions_try w req = Ok (R200 recs)).
Proof.
  intros found. subst found.
  assert (Hnot500 : ∀ m e, getSuggestions_try w req ≠ Ok (R500 m e)).
  { intros m e H. unfold getSuggestions_try in H.
    bind_inv H ouser Hq. destruct ouser as [user|]; [|discriminate].
    bind_inv H agg Hagg. unfold finish in H.
    destruct (dispatch w agg) as [ai frs].
    by destruct ai as [[[input|]]|]. }
  split_and!.
  - intros Hf Hnone. unfold getSuggestions, getSuggestions_try.
    rewrite (query_no_fault _ _ _ Hf). simpl. by rewrite Hnone.
  - intros m. unfold getSuggestions.
    destruct (getSuggestions_try w req) as [r|e] eqn:Htry; [intros ->|discriminate].
    unfold getSuggestions_try in Htry.
    bind_inv Htry ouser Hq. apply query_Ok_inv in Hq as [Hf ->].
    destruct (User_findById _ _) as [user|]; [|by injection Htry as <-].
    bind_inv Htry agg Hagg. unfold finish in Htry.
    destruct (dispatch w agg) as [ai frs].
    by destruct ai as [[[input|]]|].
  - intros m e. unfold getSuggestions.
    destruct (getSuggestions_try w req) as [r|e'] eqn:Htry.
    + split; [intros ->; by destruct (Hnot500 m e) | by intros [? _]].
    + split; [by intros [= <- <-] | by intros [[= ->] ->]].
  - intros e Hf. unfold getSuggestions, getSuggestions_try.
    by rewrite (query_fault _ _ _ _ Hf).
  - intros user s e Hf Hu Hs Hfault.
    destruct (aggregate_fault w req user s e Hs Hfault) as [e' Hagg].
    exists e'. unfold getSuggestions, getSuggestions_try.
    rewrite (query_no_fault _ _ _ Hf). simpl. by rewrite Hu, Hagg.
  - intros user e Hf Hu Hsk. unfold getSuggestions, getSuggestions_try.
    rewrite (query_no_fault _ _ _ Hf). simpl. rewrite Hu.
    unfold aggregate. by rewrite Hsk.
  - intros user agg e Hf Hu Hagg Hfin.
    rewrite (getSuggestions_aggregated _ _ _ _ Hf Hu Hagg). by rewrite Hfin.
  - intros recs. unfold getSuggestions.
    by destruct (getSuggestions_try w req) as [r|e]; [intros ->|].
Qed.

Lemma not_found_and_unexpected_failures_witness :
  getSuggestions Sample.w_down Sample.req_ghost = R404 "User not found" ∧
  ∃ e', getSuggestions Sample.w_resources_down Sample.req0
        = R500 "Failed to generate suggestions" e'.
Proof.
  split.
  - destruct (not_found_and_unexpected_failures Sample.w_down Sample.req_ghost)
      as (H & _).
    apply H; reflexivity.
  - destruct (not_found_and_unexpected_failures Sample.w_resources_down Sample.req0)
      as (_ & _ & _ & _ & H & _).
    apply (H Sample.alice QResourceFind "store unavailable"); try reflexivity.
    vm_compute. do 4 right. left.
Defined.

(** C6. The goal text sent to the oracle is the [goals] field of a plan of
    the requester in state draft, pending or approved that no other such
    plan is newer than, and the empty string when the requester has no such
    plan. In particular, when one eligible plan is strictly newer than all
    others (an older draft and a newer approved plan, say), the goal text is
    that plan's [goals]. *)
Theorem goal_text_latest_plan w req user agg :
  aggregate w req user = Ok agg →
  let eligible := eligible_plan (w_db w) (req_user_id req) in
  ((∀ p, ¬ eligible p) → goal_text (agg_payload agg) = "") ∧
  (∀ p0, eligible p0 →
     ∃ p, eligible p ∧ goal_text (agg_payload agg) = idp_goals p ∧
          ∀ q, eligible q → (idp_createdAt q ≤ idp_createdAt p)%Z) ∧
  (∀ p, eligible p →
     (∀ q, eligible q → q ≠ p → (idp_createdAt q < idp_createdAt p)%Z) →
     goal_text (agg_payload agg) = idp_goals p).
Proof.
  intros Hagg eligible.
  apply aggregate_Ok_inv in Hagg as (_ & _ & _ & _ & _ & _ & _ & _ & -> & _).
  assert (Hsome : ∀ p0, eligible p0 →
            ∃ p, latestIdp (w_db w) (req_user_id req) = Some p).
  { intros p0 Hp0.
    destruct (latestIdp _ _) as [p|] eqn:Hlatest; [eauto|].
    by destruct (latestIdp_None _ _ Hlatest p0). }
  split_and!.
  - intros Hnone.
    destruct (latestIdp _ _) as [p|] eqn:Hlatest; [|done].
    apply latestIdp_Some in Hlatest as [Hp _]. by destruct (Hnone p).
  - intros p0 Hp0. destruct (Hsome p0 Hp0) as [p Hlatest].
    rewrite Hlatest. apply latestIdp_Some in Hlatest as [Hp Hmax].
    by exists p.
  - intros p Hp Hnewest. destruct (Hsome p Hp) as [p' Hlatest].
    rewrite Hlatest. apply latestIdp_Some in Hlatest as [Hp' Hmax]. simpl.
    destruct (decide (p' = p)) as [->|Hne]; [done|].
    specialize (Hnewest p' Hp' Hne). specialize (Hmax p Hp). lia.
Qed.

Lemma goal_text_latest_plan_witness :
  goal_text (agg_payload Sample.agg0)
  = idp_goals (Sample.mkIDP "u-alice" "approved" 2 "lead a team" ["r2"]).
Proof.
  destruct (goal_text_latest_plan Sample.w_ok Sample.req0 Sample.alice Sample.agg0)
    as (_ & _ & H).
  - vm_compute; reflexivity.
  - apply H.
    + split_and!; [|reflexivity|right; right; reflexivity].
      vm_compute. right. left.
    + intros q (Hin & Hemp & Hst) Hne. vm_compute in Hin.
      repeat (apply elem_of_cons in Hin as [->|Hin];
              [first [ by destruct Hne
                     | by vm_compute
                     | by vm_compute in Hemp
                     | by (vm_compute in Hst; destruct Hst as [?|[?|?]]) ] |]).
      by apply elem_of_nil in Hin.
Defined.

(** C7. A candidate whose stored provider is absent or "Unknown" carries
    its creator's display name as provider, any other candidate its stored
    provider. In a successful response every item is an item of the
    dispatched list after backfill: when its provider was absent or
    "Unknown" and a candidate with its identifier exists, its provider is
    the provider of the candidate found for that identifier (the candidate
    itself when candidate identifiers are distinct); when its provider was
    present and not "Unknown", the item is unchanged. *)
Theorem provider_backfill w req user agg :
  w_faults w QUserFindById = None →
  User_findById (w_db w) (req_user_id req) = Some user →
  aggregate w req user = Ok agg →
  (∀ fr, fr ∈ p_resources (agg_payload agg) →
     ∃ r u, r ∈ db_resources (w_db w) ∧ u ∈ db_users (w_db w) ∧
            r_createdBy r = Some (u_id u) ∧
            fr_id fr = r_id r ∧
            fr_createdBy fr = Some {| c_id := u_id u; c_name := u_name u |} ∧
            (r_provider r = None ∨ r_provider r = Some "Unknown" →
               fr_provider fr = Some (u_name u)) ∧
            (provider_known (r_provider r) → fr_provider fr = r_provider r)) ∧
  (∀ recs, getSuggestions w req = R200 recs →
     ∃ input frs,
       dispatch w agg = (Some {| recommendations := Some input |}, frs) ∧
       ∀ rec, rec ∈ recs →
         ∃ rec0, rec0 ∈ input ∧ rec = backfill frs rec0 ∧
           (∀ fr, fr ∈ frs → Some (fr_id fr) = rId rec0 →
              rec_provider rec0 = None ∨ rec_provider rec0 = Some "Unknown" →
              ∃ fr', originalRes frs rec0 = Some fr' ∧
                     fr' ∈ frs ∧ Some (fr_id fr') = rId rec0 ∧
                     rec_provider rec = fr_provider fr' ∧
                     (NoDup (fr_id <$> frs) → fr' = fr)) ∧
           (¬ provider_missing rec0 → rec = rec0)).
Proof.
  intros Hf Hu Hagg. split.
  - apply aggregate_Ok_inv in Hagg as (_ & _ & _ & _ & _ & Hfr & Hp & _).
    rewrite Hp, Hfr. unfold formattedResources, allResources.
    intros fr (rc & -> & Hrc)%list_elem_of_fmap.
    apply list_elem_of_fmap in Hrc as (r & -> & Hr).
    apply list_elem_of_filter in Hr as [Hby Hr].
    unfold createdBy_in in Hby. destruct (r_createdBy r) as [i|] eqn:Hi; [|done].
    apply list_elem_of_fmap in Hby as (u0 & -> & Hu0).
    apply list_elem_of_filter in Hu0 as [_ Hu0].
    destruct (populate_createdBy_found _ r u0 Hu0 Hi) as (c & Hpop & _).
    destruct (populate_createdBy_user _ _ _ Hpop) as (u & Huin & Hbyu & ->).
    exists r, u. rewrite Hpop. simpl. split_and!; try done.
    + intros Hno. by rewrite (provider_known_false _ Hno).
    + intros Hknown. by destruct (provider_known (r_provider r)).
  - intros recs Hrecs.
    pose proof (getSuggestions_aggregated _ _ _ _ Hf Hu Hagg) as Hrun.
    rewrite Hrun in Hrecs. unfold finish in Hrecs.
    destruct (dispatch w agg) as [ai frs].
    destruct ai as [[[input|]]|]; simpl in Hrecs; try discriminate.
    injection Hrecs as <-. exists input, frs. split; [done|].
    intros rec (rec0 & Hin & _ & ->)%uniqueRecs_elem.
    exists rec0. split_and!; [done..| |by apply backfill_untouched].
    intros fr Hfrin Hmatch Hno.
    destruct (originalRes_found _ _ _ Hfrin Hmatch) as [fr' Horig].
    destruct (originalRes_Some _ _ _ Horig) as [Hin' Hmatch'].
    exists fr'. split_and!; try done.
    + by apply backfill_provider, provider_missing_true.
    + intros Hnd. apply (NoDup_fmap_eq fr_id frs); [done..|]. congruence.
Qed.

Lemma provider_backfill_witness :
  getSuggestions Sample.w_ok Sample.req0 = R200 Sample.returned_ok ∧
  fr_provider <$> Sample.candidates0 = [Some "Dana"; Some "Coursera"; Some "Adam"] ∧
  rec_provider <$> Sample.recs_ok
    = [Some "Unknown"; None; Some "nobody"; Some "again"; Some "Udemy"] ∧
  rec_provider <$> Sample.returned_ok = [Some "Dana"; Some "Coursera"; Some "Udemy"] ∧
  ∃ input frs,
    dispatch Sample.w_ok Sample.agg0 = (Some {| recommendations := Some input |}, frs) ∧
    ∀ rec, rec ∈ Sample.returned_ok →
      ∃ rec0, rec0 ∈ input ∧ rec = backfill frs rec0 ∧
        (∀ fr, fr ∈ frs → Some (fr_id fr) = rId rec0 →
           rec_provider rec0 = None ∨ rec_provider rec0 = Some "Unknown" →
           ∃ fr', originalRes frs rec0 = Some fr' ∧
                  fr' ∈ frs ∧ Some (fr_id fr') = rId rec0 ∧
                  rec_provider rec = fr_provider fr' ∧
                  (NoDup (fr_id <$> frs) → fr' = fr)) ∧
        (¬ provider_missing rec0 → rec = rec0).
Proof.
  assert (H : getSuggestions Sample.w_ok Sample.req0 = R200 Sample.returned_ok)
    by (vm_compute; reflexivity).
  split_and!; [exact H|reflexivity..|].
  destruct (provider_backfill Sample.w_ok Sample.req0 Sample.alice Sample.agg0)
    as [_ Hfinal].
  - reflexivity.
  - vm_compute; reflexivity.
  - vm_compute; reflexivity.
  - exact (Hfinal _ H).
Defined.

(** C8. Every entry of [peer_data] stands for another user of the
    requester's company; its resources are, without repetition, exactly the
    identifiers recommended in the approved and completed plans of that
    user; and it has skills or resources. Every such user with skills or
    such resources has an entry, and (user identifiers being distinct) a
    user with no skills and no such resources has none. *)
Theorem peer_aggregation w req user agg :
  aggregate w req user = Ok agg →
  let db := w_db w in
  let skills_of u :=
    (λ s, {| ps_skillId := se_skillId s; ps_level := level_or_1 (se_level s) |})
      <$> u_skills u in
  (∀ p, p ∈ peer_data (agg_payload agg) →
     (∃ u, is_peer db req u ∧ peer_userId p = u_id u ∧ peer_skills p = skills_of u) ∧
     NoDup (peer_resources p) ∧
     (∀ rid, rid ∈ peer_resources p ↔ consumed db (peer_userId p) rid) ∧
     ¬ (peer_skills p = [] ∧ peer_resources p = [])) ∧
  (∀ u, is_peer db req u →
     u_skills u ≠ [] ∨ (∃ rid, consumed db (u_id u) rid) →
     ∃ p, p ∈ peer_data (agg_payload agg) ∧
          peer_userId p = u_id u ∧ peer_skills p = skills_of u) ∧
  (NoDup (u_id <$> db_users db) →
   ∀ u, is_peer db req u →
     u_skills u = [] → (∀ rid, ¬ consumed db (u_id u) rid) →
     ∀ p, p ∈ peer_data (agg_payload agg) → peer_userId p ≠ u_id u).
Proof.
  intros Hagg db skills_of.
  apply aggregate_Ok_inv in Hagg as (_ & _ & _ & _ & _ & _ & _ & -> & _).
  fold db. unfold peerData.
  set (peers := allUsers db (req_user_id req) (req_user_company req)).
  set (m := userResourcesMap (allIDPs db (u_id <$> peers))).
  assert (Hentry : ∀ p, p ∈ filter
            (λ p, (0 < length (peer_resources p))%nat ∨ (0 < length (peer_skills p))%nat)
            (mkPeer m <$> peers) →
            ∃ u, is_peer db req u ∧ p = mkPeer m u ∧
                 ¬ (peer_skills p = [] ∧ peer_resources p = [])).
  { intros p [Hne (u & -> & Hu)%list_elem_of_fmap]%list_elem_of_filter.
    exists u. split_and!; [by apply allUsers_spec|done|].
    intros [Hs Hr]. rewrite Hs, Hr in Hne. simpl in Hne. lia. }
  split_and!.
  - intros p (u & Hpeer & -> & Hne)%Hentry.
    destruct (peer_resources_spec db req u Hpeer) as [Hnd Hin].
    split_and!; [by exists u|done..].
  - intros u Hpeer Hsig.
    destruct (peer_resources_spec db req u Hpeer) as [_ Hin].
    exists (mkPeer m u). split_and!; [|done..].
    apply list_elem_of_filter. split.
    + destruct Hsig as [Hsk|[rid Hrid]].
      * right. simpl. rewrite length_fmap. destruct (u_skills u); [done|simpl; lia].
      * left. simpl. apply Hin in Hrid. fold peers m in Hrid.
        destruct (default [] (m !! u_id u)); [by apply elem_of_nil in Hrid|simpl; lia].
    + apply list_elem_of_fmap_2. by apply allUsers_spec.
  - intros Hnd u Hpeer Hsk Hnone p (u' & Hpeer' & -> & Hne)%Hentry Hid.
    simpl in Hid.
    assert (u' = u) as ->.
    { apply (NoDup_fmap_eq u_id (db_users db)); [done| | |done].
      - by destruct Hpeer'.
      - by destruct Hpeer. }
    apply Hne. simpl. rewrite Hsk. split; [done|].
    destruct (peer_resources_spec db req u Hpeer) as [_ Hin].
    fold peers m in Hin.
    destruct (default [] (m !! u_id u)) as [|rid rest]; [done|].
    destruct (Hnone rid). apply Hin. left.
Qed.

Lemma peer_aggregation_witness :
  (∃ p, p ∈ peer_data (agg_payload Sample.agg0) ∧
        peer_userId p = "u-dana" ∧ peer_resources p = ["r1"; "r2"; "r3"]) ∧
  (∀ p, p ∈ peer_data (agg_payload Sample.agg0) → peer_userId p ≠ "u-paul").
Proof.
  destruct (peer_aggregation Sample.w_ok Sample.req0 Sample.alice Sample.agg0)
    as (_ & _ & Hexcluded).
  { vm_compute; reflexivity. }
  split.
  - eexists. split_and!; [left|reflexivity..].
  - apply Hexcluded with (u := Sample.paul).
    + apply (bool_decide_unpack (NoDup (u_id <$> db_users Sample.db0))).
      vm_compute. exact I.
    + split_and!; [|by vm_compute|reflexivity]. vm_compute. do 3 right. left.
    + reflexivity.
    + intros rid (idp & Hin & Hemp & _). vm_compute in Hin.
      repeat (apply elem_of_cons in Hin as [->|Hin]; [by vm_compute in Hemp|]).
      by apply elem_of_nil in Hin.
Defined.

(** * More properties of the controller *)

(** ** The payload, field by field *)

Lemma aggregate_Ok_fields w req user agg :
  aggregate w req user = Ok agg →
  ∃ uSkills,
    userSkills (w_db w) user = Ok uSkills ∧
    user_skills (agg_payload agg) = uSkills ∧
    skills_to_improve (agg_payload agg) = default [] (req_targetSkills req) ∧
    performance_reports (agg_payload agg) = reports (w_db w) (req_user_id req) ∧
    p_skills (agg_payload agg) = db_skills (w_db w) ∧
    persona (agg_payload agg) = u_role user.
Proof.
  unfold aggregate. intros H.
  bind_inv H uSkills HuS.
  bind_inv H latest H1. apply query_Ok_inv in H1 as [_ ->].
  bind_inv H prs H2. apply query_Ok_inv in H2 as [_ ->].
  bind_inv H sks H3. apply query_Ok_inv in H3 as [_ ->].
  bind_inv H cus H4. apply query_Ok_inv in H4 as [_ ->].
  bind_inv H rss H5. apply query_Ok_inv in H5 as [_ ->].
  bind_inv H prs' H6. apply query_Ok_inv in H6 as [_ ->].
  bind_inv H ids H7. apply query_Ok_inv in H7 as [_ ->].
  bind_inv H params Hp.
  injection H as <-. simpl. by exists uSkills.
Qed.

(** ** The requester's skills *)

Lemma populate_skillId_Some db s sk :
  populate_skillId db (se_skillId s) = Some sk →
  sk ∈ db_skills db ∧ sk_id sk = se_skillId s.
Proof.
  unfold populate_skillId. intros [Hin Heq%bool_decide_eq_true]%find_some.
  split; [by apply list_elem_of_In | done].
Qed.

Lemma populate_skillId_None db s :
  populate_skillId db (se_skillId s) = None → ¬ skill_known db s.
Proof.
  unfold populate_skillId. intros Hnone (sk & Hin & Heq).
  apply list_elem_of_In in Hin. apply (find_none _ _ Hnone) in Hin.
  by apply bool_decide_eq_false in Hin.
Qed.

(** The mapping of lines 62-65 over any list of entries: all of them
    resolve and are sent as they are, or one dangles and the TypeError is
    raised. *)
Lemma userSkills_entries db (entries : list SkillEntry) :
  let run :=
    mapM (λ s,
            match populate_skillId db (se_skillId s) with
            | Some sk => Ok {| us_skillId := sk_id sk; us_level := se_level s |}
            | None => Throw "Cannot read properties of null (reading '_id')"
            end) entries in
  ((∀ s, s ∈ entries → skill_known db s) ∧ run = Ok (sentSkill <$> entries)) ∨
  ((∃ s, s ∈ entries ∧ ¬ skill_known db s) ∧
   run = Throw "Cannot read properties of null (reading '_id')").
Proof.
  induction entries as [|s entries IH]; simpl.
  { left. split; [by intros s ?%elem_of_nil | done]. }
  destruct (populate_skillId db (se_skillId s)) as [sk|] eqn:Hpop; simpl.
  - apply populate_skillId_Some in Hpop as [Hin Hid].
    destruct IH as [[Hall ->]|[(s' & Hs' & Hun) ->]]; simpl.
    + left. split.
      * intros s' [->|?]%elem_of_cons; [by exists sk | by apply Hall].
      * unfold sentSkill at 1. by rewrite Hid.
    + right. split; [|done]. exists s'. split; [by right | done].
  - right. split; [|done]. exists s. split; [left|].
    by apply populate_skillId_None.
Qed.

Lemma userSkills_cases db user :
  ((∀ s, s ∈ u_skills user → skill_known db s) ∧
   userSkills db user = Ok (sentSkill <$> u_skills user)) ∨
  ((∃ s, s ∈ u_skills user ∧ ¬ skill_known db s) ∧
   userSkills db user = Throw "Cannot read properties of null (reading '_id')").
Proof. apply userSkills_entries. Qed.

(** X1. The skills of the requester reach the oracle one to one, in the
    order of the profile, each with its stored level untouched (absent
    stays absent: the default of 1 is for peers only). When one entry of
    the profile refers to a skill the store does not hold, nothing is sent:
    the request is answered with the server-side error. *)
Theorem requester_skills_sent_or_rejected w req user :
  w_faults w QUserFindById = None →
  User_findById (w_db w) (req_user_id req) = Some user →
  (∀ agg, aggregate w req user = Ok agg →
     user_skills (agg_payload agg) = sentSkill <$> u_skills user ∧
     ∀ s, s ∈ u_skills user → skill_known (w_db w) s) ∧
  (∀ s, s ∈ u_skills user → ¬ skill_known (w_db w) s →
     getSuggestions w req
     = R500 "Failed to generate suggestions"
            "Cannot read properties of null (reading '_id')").
Proof.
  intros Hf Hu. split.
  - intros agg (uSkills & Hus & -> & _)%aggregate_Ok_fields.
    destruct (userSkills_cases (w_db w) user) as [[Hall Hok]|[_ Hthrow]].
    + rewrite Hok in Hus. by injection Hus as <-.
    + by rewrite Hthrow in Hus.
  - intros s Hs Hun. unfold getSuggestions, getSuggestions_try.
    rewrite (query_no_fault _ _ _ Hf). simpl. rewrite Hu. unfold aggregate.
    destruct (userSkills_cases (w_db w) user) as [[Hall _]|[_ ->]]; [|done].
    destruct Hun. by apply Hall.
Qed.

Lemma requester_skills_sent_or_rejected_witness :
  user_skills (agg_payload Sample.agg0) = sentSkill <$> u_skills Sample.alice ∧
  getSuggestions SampleMore.w_reports SampleMore.req_carol
  = R500 "Failed to generate suggestions"
         "Cannot read properties of null (reading '_id')".
Proof.
  split.
  - destruct (requester_skills_sent_or_rejected Sample.w_ok Sample.req0 Sample.alice)
      as [H _]; [reflexivity | vm_compute; reflexivity |].
    apply H. vm_compute; reflexivity.
  - destruct (requester_skills_sent_or_rejected
                SampleMore.w_reports SampleMore.req_carol SampleMore.carol)
      as [_ H]; [reflexivity | vm_compute; reflexivity |].
    apply (H {| se_skillId := "s-gone"; se_level := Some 1%nat |}).
    + vm_compute. right. left.
    + intros (sk & Hin & Hid). vm_compute in Hin.
      repeat (apply elem_of_cons in Hin as [->|Hin]; [by vm_compute in Hid|]).
      by apply elem_of_nil in Hin.
Defined.

(** ** Which failures fail the request *)

Lemma getWeights_admin_fault w company e :
  w_faults w QAdminFindOne = Some e → getWeights w company = Ok DEFAULT_WEIGHTS.
Proof.
  intros Hf. rewrite getWeights_cases. unfold getWeights_try.
  by rewrite (query_fault _ _ _ _ Hf).
Qed.

(** X2. The aggregation goes through exactly when every skill reference of
    the requester resolves and none of the seven store calls of the
    aggregation rejects. Weight resolution is not among the conditions: a
    rejected admin lookup leaves the request alive, with the hard-coded
    defaults as weights in the payload. *)
Theorem aggregation_succeeds_iff w req user :
  ((∃ agg, aggregate w req user = Ok agg) ↔
   (∀ s, s ∈ u_skills user → skill_known (w_db w) s) ∧
   (∀ site, site ∈ aggregation_sites → w_faults w site = None)) ∧
  (∀ agg e, aggregate w req user = Ok agg →
            w_faults w QAdminFindOne = Some e →
            custom_weights (agg_payload agg) = DEFAULT_WEIGHTS).
Proof.
  split; [split|].
  - intros [agg Hagg]. split.
    + apply aggregate_Ok_fields in Hagg as (uSkills & Hus & _).
      destruct (userSkills_cases (w_db w) user) as [[Hall _]|[_ Hthrow]]; [done|].
      by rewrite Hthrow in Hus.
    + by apply aggregate_Ok_inv in Hagg as (_ & _ & _ & Hnone & _).
  - intros [Hknown Hnone].
    destruct (userSkills_cases (w_db w) user) as [[_ Hok]|[(s & Hs & Hun) _]].
    2:{ destruct Hun. by apply Hknown. }
    destruct (getWeights_total w (u_company user)) as [params Hp].
    unfold aggregate. rewrite Hok. simpl.
    assert (Hq : ∀ A site (v : A), site ∈ aggregation_sites → query w site v = Ok v).
    { intros A site v Hsite. apply query_no_fault. by apply Hnone. }
    unfold aggregation_sites in Hq.
    repeat (rewrite Hq by (repeat first [left | right]); simpl).
    rewrite Hp. simpl. eauto.
  - intros agg e Hagg Hf.
    apply aggregate_Ok_inv in Hagg as (_ & params & _ & _ & Hp & _ & _ & _ & _ & -> & _).
    rewrite (getWeights_admin_fault _ _ _ Hf) in Hp. by injection Hp as <-.
Qed.

Lemma aggregation_succeeds_iff_witness :
  (∃ agg, aggregate Sample.w_store_down Sample.req0 Sample.alice = Ok agg) ∧
  custom_weights (agg_payload Sample.agg0) = DEFAULT_WEIGHTS.
Proof.
  destruct (aggregation_succeeds_iff Sample.w_store_down Sample.req0 Sample.alice)
    as [[_ Hiff] Hweights].
  split.
  - apply Hiff. split.
    + intros s Hs. vm_compute in Hs.
      apply elem_of_cons in Hs as [->|Hs]; [|by apply elem_of_nil in Hs].
      eexists. split; [left|reflexivity].
    + intros site Hsite. unfold aggregation_sites in Hsite.
      repeat (apply elem_of_cons in Hsite as [->|Hsite]; [reflexivity|]).
      by apply elem_of_nil in Hsite.
  - apply (Hweights Sample.agg0 "store unavailable"); vm_compute; reflexivity.
Defined.

(** The store calls of the aggregation, run in the order of the source up to
    the first one that rejects. *)
Lemma aggregate_first_fault w req user pre site post e :
  (∀ s, s ∈ u_skills user → skill_known (w_db w) s) →
  aggregation_sites = (pre ++ site :: post)%list →
  (∀ s, s ∈ pre → w_faults w s = None) →
  w_faults w site = Some e →
  aggregate w req user = Throw e.
Proof.
  intros Hknown Hsplit Hpre Hsite.
  destruct (userSkills_cases (w_db w) user) as [[_ Hok]|[(s & Hs & Hun) _]].
  2:{ destruct Hun. by apply Hknown. }
  unfold aggregate. rewrite Hok. simpl.
  unfold aggregation_sites in Hsplit. unfold query.
  repeat (destruct pre as [|? pre];
          [ injection Hsplit as <- <-;
            repeat (match goal with
                    | |- context [w_faults w ?s] =>
                        first [ rewrite (Hpre s) by (repeat first [left | right])
                              | rewrite Hsite ]
                    end; simpl);
            reflexivity
          | injection Hsplit as <- Hsplit ]).
  by destruct pre.
Qed.

(** X3. When several store calls of the aggregation would reject, the
    server-side error carries the message of the first one in the order of
    the source: the calls after it are never made. *)
Theorem first_rejection_is_reported w req user pre site post e :
  w_faults w QUserFindById = None →
  User_findById (w_db w) (req_user_id req) = Some user →
  (∀ s, s ∈ u_skills user → skill_known (w_db w) s) →
  aggregation_sites = (pre ++ site :: post)%list →
  (∀ s, s ∈ pre → w_faults w s = None) →
  w_faults w site = Some e →
  getSuggestions w req = R500 "Failed to generate suggestions" e.
Proof.
  intros Hf Hu Hknown Hsplit Hpre Hsite.
  unfold getSuggestions, getSuggestions_try.
  rewrite (query_no_fault _ _ _ Hf). simpl. rewrite Hu.
  by rewrite (aggregate_first_fault _ _ _ _ _ _ _ Hknown Hsplit Hpre Hsite).
Qed.

Lemma first_rejection_is_reported_witness :
  getSuggestions SampleMore.w_two_down Sample.req0
  = R500 "Failed to generate suggestions" "reports unavailable".
Proof.
  apply (first_rejection_is_reported SampleMore.w_two_down Sample.req0 Sample.alice
           [QIdpFindOne] QReportFind
           [QSkillFind; QCompanyUsers; QResourceFind; QPeerUsers; QPeerIdps]).
  - reflexivity.
  - vm_compute; reflexivity.
  - intros s Hs. vm_compute in Hs.
    apply elem_of_cons in Hs as [->|Hs]; [|by apply elem_of_nil in Hs].
    eexists. split; [left|reflexivity].
  - reflexivity.
  - intros s Hs. apply elem_of_cons in Hs as [->|Hs]; [reflexivity|].
    by apply elem_of_nil in Hs.
  - reflexivity.
Defined.

(** ** The performance history *)

Lemma reports_sorted db userId :
  let own := filter (λ r, pr_employee r = userId) (db_reports db) in
  ∃ older,
    (reports db userId ++ older)%list ≡ₚ own ∧
    StronglySorted report_newer_first (reports db userId ++ older)%list ∧
    length (reports db userId) = (5 `min` length own)%nat.
Proof.
  intros own. unfold reports. fold own.
  exists (drop 5 (merge_sort report_newer_first own)).
  rewrite take_drop. split_and!.
  - apply merge_sort_Permutation.
  - apply (StronglySorted_merge_sort report_newer_first).
  - rewrite length_take. by rewrite (merge_sort_Permutation report_newer_first own).
Qed.

(** X4. The performance history sent to the oracle holds the requester's
    own reports only, newest first, and no more than five of them: all of
    them when the requester has at most five, and otherwise five that none
    of the reports left out is newer than. *)
Theorem recent_reports w req user agg :
  aggregate w req user = Ok agg →
  let sent := performance_reports (agg_payload agg) in
  let own r := r ∈ db_reports (w_db w) ∧ pr_employee r = req_user_id req in
  let n := length (filter (λ r, pr_employee r = req_user_id req) (db_reports (w_db w))) in
  length sent = (5 `min` n)%nat ∧
  (∀ r, r ∈ sent → own r) ∧
  StronglySorted (λ a b, (pr_createdAt b ≤ pr_createdAt a)%Z) sent ∧
  (∀ r r', r ∈ sent → own r' → r' ∉ sent →
           (pr_createdAt r' ≤ pr_createdAt r)%Z) ∧
  ((n ≤ 5)%nat → ∀ r, own r → r ∈ sent).
Proof.
  intros (_ & _ & _ & _ & -> & _)%aggregate_Ok_fields sent own n.
  destruct (reports_sorted (w_db w) (req_user_id req)) as (older & Hperm & Hsorted & Hlen).
  fold sent in Hperm, Hsorted, Hlen.
  assert (Hown : ∀ r, own r ↔ r ∈ (sent ++ older)%list).
  { intros r. rewrite Hperm, list_elem_of_filter. unfold own. tauto. }
  split_and!.
  - done.
  - intros r Hr. apply Hown, elem_of_app. by left.
  - by apply StronglySorted_app_1_l in Hsorted.
  - intros r r' Hr [Hr'|Hr']%Hown%elem_of_app Hnot; [done|].
    apply (StronglySorted_app_1_elem_of _ _ _ _ _ Hsorted Hr Hr').
  - intros Hn r Hr%Hown.
    assert (Holder : older = []).
    { apply nil_length_inv. apply Permutation_length in Hperm.
      rewrite length_app in Hperm. fold n in Hperm, Hlen. lia. }
    by rewrite Holder, app_nil_r in Hr.
Qed.

Lemma recent_reports_witness :
  ∃ agg,
    aggregate SampleMore.w_reports Sample.req0 Sample.alice = Ok agg ∧
    pr_id <$> performance_reports (agg_payload agg) = ["p7"; "p6"; "p5"; "p4"; "p3"] ∧
    StronglySorted (λ a b, (pr_createdAt b ≤ pr_createdAt a)%Z)
                   (performance_reports (agg_payload agg)).
Proof.
  destruct (aggregate SampleMore.w_reports Sample.req0 Sample.alice) as [agg|e] eqn:Hagg;
    [|by vm_compute in Hagg].
  exists agg. split; [done|]. split.
  - vm_compute in Hagg. injection Hagg as <-. reflexivity.
  - by destruct (recent_reports _ _ _ _ Hagg) as (_ & _ & H & _).
Defined.

(** ** The candidate set *)

Lemma candidates_ids db ids :
  fr_id <$> formattedResources (allResources db ids)
  = r_id <$> filter (createdBy_in ids) (db_resources db).
Proof.
  unfold formattedResources, allResources.
  rewrite <- !list_fmap_compose. by apply list_fmap_ext.
Qed.

(** X5. The candidate set leaves no resource of the tenant out: every
    stored resource created by a user of the requester's company is a
    candidate, under its own identifier. The candidates come in the order
    of the store, and their identifiers are distinct when those of the
    stored resources are. *)
Theorem candidates_complete w req user agg :
  aggregate w req user = Ok agg →
  let db := w_db w in
  let candidates := p_resources (agg_payload agg) in
  (∀ r u, r ∈ db_resources db → u ∈ db_users db →
          r_createdBy r = Some (u_id u) → u_company u = req_user_company req →
          formatResource (r, populate_createdBy db r) ∈ candidates ∧
          r_id r ∈ fr_id <$> candidates) ∧
  (fr_id <$> candidates) `sublist_of` (r_id <$> db_resources db) ∧
  (NoDup (r_id <$> db_resources db) → NoDup (fr_id <$> candidates)).
Proof.
  intros Hagg db candidates.
  apply aggregate_Ok_inv in Hagg as (_ & _ & _ & _ & _ & Hfr & Hp & _).
  subst candidates. rewrite Hp, Hfr. fold db.
  assert (Hsub : (fr_id <$> formattedResources
                    (allResources db (u_id <$> companyUsers db (req_user_company req))))
                 `sublist_of` (r_id <$> db_resources db)).
  { rewrite candidates_ids. apply fmap_sublist, sublist_filter. }
  split_and!; [|done|].
  - intros r u Hr Hu Hby Hc.
    assert (Hin : formatResource (r, populate_createdBy db r)
                  ∈ formattedResources
                      (allResources db (u_id <$> companyUsers db (req_user_company req)))).
    { unfold formattedResources, allResources.
      apply list_elem_of_fmap_2.
      apply (list_elem_of_fmap_2 (λ r, (r, populate_createdBy db r))).
      apply list_elem_of_filter. split; [|done].
      unfold createdBy_in. rewrite Hby. apply list_elem_of_fmap_2.
      by apply list_elem_of_filter. }
    split; [done|].
    by apply (list_elem_of_fmap_2 fr_id) in Hin.
  - intros Hnd. eapply sublist_NoDup; [exact Hnd | exact Hsub].
Qed.

Lemma candidates_complete_witness :
  formatResource (Sample.r3, populate_createdBy Sample.db0 Sample.r3)
    ∈ Sample.candidates0 ∧
  NoDup (fr_id <$> Sample.candidates0).
Proof.
  destruct (candidates_complete Sample.w_ok Sample.req0 Sample.alice Sample.agg0)
    as (Hall & _ & Hnd); [vm_compute; reflexivity|].
  split.
  - apply (Hall Sample.r3 Sample.adam); [|vm_compute; right; left|reflexivity..].
    vm_compute. do 3 right. left.
  - apply Hnd. apply (bool_decide_unpack (NoDup (r_id <$> db_resources Sample.db0))).
    vm_compute. exact I.
Defined.

(** ** The fallback answer, item by item *)

Lemma set_provider_same rec : set_provider rec (rec_provider rec) = rec.
Proof. by destruct rec. Qed.

Lemma originalRes_set_provider frs rec p :
  originalRes frs (set_provider rec p) = originalRes frs rec.
Proof. reflexivity. Qed.

(** Among candidates with distinct identifiers, the item made from a
    candidate is left as it is by the backfill. *)
Lemma backfill_fallbackRec (frs : list FormattedResource) fr :
  NoDup (fr_id <$> frs) → fr ∈ frs → fr_id fr ≠ "" →
  backfill frs (fallbackRec fr) = fallbackRec fr.
Proof.
  intros Hnd Hin Hne. unfold backfill.
  destruct (originalRes frs (fallbackRec fr)) as [fr'|] eqn:Horig; [|done].
  destruct (provider_missing (fallbackRec fr)); [|done].
  apply originalRes_Some in Horig as [Hin' Hid].
  rewrite rId_fallbackRec, decide_False in Hid by done.
  injection Hid as Hid.
  rewrite (NoDup_fmap_eq fr_id frs fr' fr Hnd Hin' Hin Hid).
  apply (set_provider_same (fallbackRec fr)).
Qed.

(** A list whose items all carry an identifier, each a different one and
    none met before, is kept whole. *)
Lemma keep_first_distinct recs : ∀ seen,
  NoDup (rId <$> recs) → (∀ rec, rec ∈ recs → has_id rec ∧ rId rec ∉ seen) →
  keep_first seen recs = recs.
Proof.
  induction recs as [|rec recs IH]; intros seen Hnd Hall; simpl; [done|].
  rewrite fmap_cons in Hnd. apply NoDup_cons in Hnd as [Hnotin Hnd].
  rewrite decide_True by (apply Hall; left).
  f_equal. apply IH; [done|].
  intros rec' Hin. destruct (Hall rec') as [Hid Hseen]; [by right|].
  split; [done|]. intros [Heq|?]%elem_of_cons; [|done].
  apply Hnotin. rewrite <- Heq. by apply list_elem_of_fmap_2.
Qed.

(** X6. With stored resources that have distinct, non-empty identifiers, the
    fallback answer is exactly the first ten candidates in their shuffled
    order, each in the shape of a recommendation: the reconciler drops and
    changes nothing there, so the answer holds ten items, or all the
    candidates when there are fewer. *)
Theorem fallback_answer_exact w req user agg msg :
  w_faults w QUserFindById = None →
  User_findById (w_db w) (req_user_id req) = Some user →
  aggregate w req user = Ok agg →
  w_oracle w (agg_payload agg) = OracleThrows msg →
  (∀ l, w_shuffle w l ≡ₚ l) →
  NoDup (r_id <$> db_resources (w_db w)) →
  (∀ r, r ∈ db_resources (w_db w) → r_id r ≠ "") →
  let sample := take 10 (w_shuffle w (agg_formattedResources agg)) in
  getSuggestions w req = R200 (fallbackRec <$> sample) ∧
  length sample = (10 `min` length (agg_formattedResources agg))%nat.
Proof.
  intros Hf Hu Hagg Ho Hperm Hnd Hne sample.
  set (frs := agg_formattedResources agg) in *.
  set (shuffled := w_shuffle w frs) in *.
  assert (Hids : fr_id <$> frs
                 = r_id <$> filter (createdBy_in
                     (u_id <$> companyUsers (w_db w) (req_user_company req)))
                     (db_resources (w_db w))).
  { pose proof Hagg as Hinv.
    apply aggregate_Ok_inv in Hinv as (_ & _ & _ & _ & _ & Hfr & _).
    subst frs. rewrite Hfr. apply candidates_ids. }
  assert (Hnd_sh : NoDup (fr_id <$> shuffled)).
  { unfold shuffled. rewrite (Hperm frs), Hids.
    eapply sublist_NoDup; [apply Hnd|]. apply fmap_sublist, sublist_filter. }
  assert (Hne_sh : ∀ fr, fr ∈ shuffled → fr_id fr ≠ "").
  { intros fr Hfr. unfold shuffled in Hfr. rewrite (Hperm frs) in Hfr.
    apply (list_elem_of_fmap_2 fr_id) in Hfr. rewrite Hids in Hfr.
    apply list_elem_of_fmap in Hfr as (r & -> & [_ Hr]%list_elem_of_filter).
    by apply Hne. }
  split.
  2:{ unfold sample. rewrite length_take. unfold shuffled. by rewrite (Hperm frs). }
  rewrite (getSuggestions_aggregated _ _ _ _ Hf Hu Hagg).
  unfold finish. rewrite (dispatch_oracle_throws _ _ _ Ho). simpl.
  fold frs shuffled sample. f_equal.
  rewrite uniqueRecs_keep_first.
  assert (Hsub : ∀ fr, fr ∈ sample → fr ∈ shuffled).
  { intros fr Hfr. apply (elem_of_sublist _ _ _ Hfr), sublist_take. }
  rewrite keep_first_distinct.
  - rewrite <- list_fmap_compose. apply list_fmap_ext. intros i fr Hi. simpl.
    apply list_elem_of_lookup_2, Hsub in Hi.
    apply backfill_fallbackRec; [done..|]. by apply Hne_sh.
  - assert (Heq : rId <$> (fallbackRec <$> sample) = Some <$> (fr_id <$> sample)).
    { rewrite <- !list_fmap_compose. apply list_fmap_ext. intros i fr Hi. simpl.
      apply list_elem_of_lookup_2, Hsub in Hi.
      rewrite rId_fallbackRec, decide_False; [done|]. by apply Hne_sh. }
    rewrite Heq. apply (NoDup_fmap_2 Some).
    eapply sublist_NoDup; [apply Hnd_sh|]. apply fmap_sublist, sublist_take.
  - intros rec (fr & -> & Hfr%Hsub)%list_elem_of_fmap.
    split; [|apply not_elem_of_nil].
    unfold has_id. rewrite rId_fallbackRec, decide_False by (by apply Hne_sh).
    simpl. apply bool_decide_pack. by apply Hne_sh.
Qed.

Lemma fallback_answer_exact_witness :
  getSuggestions Sample.w_down Sample.req0
  = R200 (fallbackRec <$> take 10 (reverse Sample.candidates0)) ∧
  length (take 10 (reverse Sample.candidates0)) = 3%nat.
Proof.
  destruct (fallback_answer_exact Sample.w_down Sample.req0 Sample.alice
              Sample.agg0 "ECONNREFUSED") as [Hrun Hlen].
  - reflexivity.
  - vm_compute; reflexivity.
  - vm_compute; reflexivity.
  - reflexivity.
  - intros l. apply reverse_Permutation.
  - apply (bool_decide_unpack (NoDup (r_id <$> db_resources Sample.db0))).
    vm_compute. exact I.
  - intros r Hr. vm_compute in Hr.
    repeat (apply elem_of_cons in Hr as [->|Hr]; [by vm_compute|]).
    by apply elem_of_nil in Hr.
  - split; [exact Hrun | reflexivity].
Defined.

(** ** What the reconciler leaves alone *)

Lemma backfill_fields frs rec :
  let rec' := backfill frs rec in
  rec_resourceId rec' = rec_resourceId rec ∧ rec__id rec' = rec__id rec ∧
  rec_id rec' = rec_id rec ∧ rec_title rec' = rec_title rec ∧
  rec_type rec' = rec_type rec ∧ rec_url rec' = rec_url rec ∧
  rec_duration rec' = rec_duration rec ∧ rec_author rec' = rec_author rec.
Proof.
  unfold backfill. destruct (originalRes frs rec); [|done].
  by destruct (provider_missing rec).
Qed.

(** X7. The reconciler changes nothing of an item but its provider: every
    returned item has the identifier fields, title, type, url, duration and
    author of an item of the dispatched list. *)
Theorem reconciler_changes_provider_only w req recs :
  getSuggestions w req = R200 recs →
  ∃ user agg input frs,
    User_findById (w_db w) (req_user_id req) = Some user ∧
    aggregate w req user = Ok agg ∧
    dispatch w agg = (Some {| recommendations := Some input |}, frs) ∧
    ∀ rec, rec ∈ recs →
      ∃ rec0, rec0 ∈ input ∧
        rec_resourceId rec = rec_resourceId rec0 ∧ rec__id rec = rec__id rec0 ∧
        rec_id rec = rec_id rec0 ∧ rec_title rec = rec_title rec0 ∧
        rec_type rec = rec_type rec0 ∧ rec_url rec = rec_url rec0 ∧
        rec_duration rec = rec_duration rec0 ∧ rec_author rec = rec_author rec0.
Proof.
  intros (user & agg & input & frs & _ & Hu & Hagg & Hd & ->)%getSuggestions_200_inv.
  exists user, agg, input, frs. split_and!; [done..|].
  intros rec (rec0 & Hin & _ & ->)%uniqueRecs_elem.
  exists rec0. split; [done|]. apply backfill_fields.
Qed.

Lemma reconciler_changes_provider_only_witness :
  ∃ user agg input frs,
    User_findById (w_db Sample.w_ok) (req_user_id Sample.req0) = Some user ∧
    aggregate Sample.w_ok Sample.req0 user = Ok agg ∧
    dispatch Sample.w_ok agg = (Some {| recommendations := Some input |}, frs) ∧
    ∀ rec, rec ∈ Sample.returned_ok →
      ∃ rec0, rec0 ∈ input ∧
        rec_resourceId rec = rec_resourceId rec0 ∧ rec__id rec = rec__id rec0 ∧
        rec_id rec = rec_id rec0 ∧ rec_title rec = rec_title rec0 ∧
        rec_type rec = rec_type rec0 ∧ rec_url rec = rec_url rec0 ∧
        rec_duration rec = rec_duration rec0 ∧ rec_author rec = rec_author rec0.
Proof.
  apply (reconciler_changes_provider_only Sample.w_ok Sample.req0).
  vm_compute; reflexivity.
Defined.

Lemma backfill_idempotent frs rec :
  backfill frs (backfill frs rec) = backfill frs rec.
Proof.
  unfold backfill at 2 3.
  destruct (originalRes frs rec) as [orig|] eqn:Horig.
  - destruct (provider_missing rec) eqn:Hmiss.
    + unfold backfill. rewrite originalRes_set_provider, Horig.
      by destruct (provider_missing (set_provider rec (fr_provider orig))).
    + unfold backfill. by rewrite Horig, Hmiss.
  - unfold backfill. by rewrite Horig.
Qed.

(** X8. Reconciling is idempotent: a list that went through the reconciler
    goes through it again unchanged. *)
Theorem uniqueRecs_idempotent frs recs :
  uniqueRecs frs (uniqueRecs frs recs) = uniqueRecs frs recs.
Proof.
  rewrite (uniqueRecs_keep_first frs (uniqueRecs frs recs)).
  rewrite keep_first_distinct.
  - rewrite (uniqueRecs_keep_first frs recs), <- list_fmap_compose.
    apply list_fmap_ext. intros i rec _. apply backfill_idempotent.
  - rewrite uniqueRecs_keep_first, fmap_rId_backfill. apply keep_first_NoDup.
  - intros rec (rec0 & _ & Hid & ->)%uniqueRecs_elem.
    split; [|apply not_elem_of_nil]. unfold has_id. by rewrite rId_backfill.
Qed.

(** ** Where the weights come from *)

Lemma User_findOne_admin_Some db company u :
  User_findOne_admin db company = Some u →
  u ∈ db_users db ∧ u_company u = company ∧ u_role u = "admin".
Proof.
  unfold User_findOne_admin. intros [Hin Hb]%find_some.
  apply andb_true_iff in Hb as [Hc%bool_decide_eq_true Hr%bool_decide_eq_true].
  split_and!; [by apply list_elem_of_In | done..].
Qed.

(** X9. The weights handed to the oracle are never those of another
    tenant: they are the weights stored on an admin account of the very
    company asked for, or the content of the legacy file as [JSON.parse]
    gives it, or the hard-coded defaults. *)
Theorem weights_provenance w company v :
  getWeights w company = Ok v →
  (∃ u cs, u ∈ db_users (w_db w) ∧ u_company u = company ∧ u_role u = "admin" ∧
           u_companySettings u = Some cs ∧ cs_aiWeights cs = Some v) ∨
  (w_existsSync w = true ∧
   ∃ txt, w_readFileSync w = Ok txt ∧ w_JSON_parse w txt = Ok v) ∨
  v = DEFAULT_WEIGHTS.
Proof.
  rewrite getWeights_cases. unfold getWeights_try, query.
  destruct (w_faults w QAdminFindOne); simpl.
  { intros [= <-]. by right; right. }
  destruct (User_findOne_admin (w_db w) company) as [u|] eqn:Hadmin; simpl.
  - apply User_findOne_admin_Some in Hadmin as (Hin & Hc & Hr).
    destruct (u_companySettings u) as [cs|] eqn:Hcs.
    + destruct (cs_aiWeights cs) as [wts|] eqn:Hwts.
      * destruct (js_truthy wts).
        { intros [= <-]. left. by exists u, cs. }
        destruct (w_existsSync w); [|intros [= <-]; by right; right].
        destruct (w_readFileSync w) as [txt|]; simpl; [|intros [= <-]; by right; right].
        destruct (w_JSON_parse w txt) as [cfg|] eqn:Hparse; simpl;
          intros [= <-]; [|by right; right].
        right; left. split; [done|]. by exists txt.
      * destruct (w_existsSync w); [|intros [= <-]; by right; right].
        destruct (w_readFileSync w) as [txt|]; simpl; [|intros [= <-]; by right; right].
        destruct (w_JSON_parse w txt) as [cfg|] eqn:Hparse; simpl;
          intros [= <-]; [|by right; right].
        right; left. split; [done|]. by exists txt.
    + destruct (w_existsSync w); [|intros [= <-]; by right; right].
      destruct (w_readFileSync w) as [txt|]; simpl; [|intros [= <-]; by right; right].
      destruct (w_JSON_parse w txt) as [cfg|] eqn:Hparse; simpl;
        intros [= <-]; [|by right; right].
      right; left. split; [done|]. by exists txt.
  - destruct (w_existsSync w); [|intros [= <-]; by right; right].
    destruct (w_readFileSync w) as [txt|]; simpl; [|intros [= <-]; by right; right].
    destruct (w_JSON_parse w txt) as [cfg|] eqn:Hparse; simpl;
      intros [= <-]; [|by right; right].
    right; left. split; [done|]. by exists txt.
Qed.

Lemma weights_provenance_witness :
  getWeights SampleMore.w_admins "acme" = Ok SampleMore.weights_acme ∧
  ((∃ u cs, u ∈ db_users (w_db SampleMore.w_admins) ∧
            u_company u = "acme" ∧ u_role u = "admin" ∧
            u_companySettings u = Some cs ∧
            cs_aiWeights cs = Some SampleMore.weights_acme) ∨
   (w_existsSync SampleMore.w_admins = true ∧
    ∃ txt, w_readFileSync SampleMore.w_admins = Ok txt ∧
           w_JSON_parse SampleMore.w_admins txt = Ok SampleMore.weights_acme) ∨
   SampleMore.weights_acme = DEFAULT_WEIGHTS).
Proof.
  assert (H : getWeights SampleMore.w_admins "acme" = Ok SampleMore.weights_acme)
    by (vm_compute; reflexivity).
  split; [exact H|].
  exact (weights_provenance _ _ _ H).
Defined.

(** ** The peers, as a list *)




(** ** A call that resolves *)



(** * The manager dashboard: deciding on a pending plan *)

Lemma filter_keeps_all {A} (P : A → Prop) `{∀ x, Decision (P x)} (l : list A) :
  (∀ x, x ∈ l → P x) → filter P l = l.
Proof.
  induction l as [|a l IH]; intros Hall; [done|].
  rewrite filter_cons, decide_True by (apply Hall; left).
  f_equal. apply IH. intros x Hx. apply Hall. by right.
Qed.

Lemma pending_without_length (l : list Dashboard.PendingIdp) i :
  NoDup (Dashboard.pi_id <$> l) → i ∈ Dashboard.pi_id <$> l →
  S (length (filter (λ p, Some (Dashboard.pi_id p) ≠ Some i) l)) = length l.
Proof.
  induction l as [|p l IH]; [by intros _ ?%elem_of_nil|].
  rewrite fmap_cons. intros [Hnotin Hnd]%NoDup_cons Hin.
  rewrite filter_cons. case_decide as Hp.
  - apply elem_of_cons in Hin as [->|Hin]; [by destruct Hp|].
    simpl. f_equal. by apply IH.
  - injection Hp as <-. simpl. do 2 f_equal. apply filter_keeps_all.
    intros q Hq [= Heq]. apply Hnotin. rewrite <- Heq.
    by apply list_elem_of_fmap_2.
Qed.

(** X12. Approving a pending plan submits it at once, without the feedback
    dialog. When the backend accepts, the plan leaves the pending list and
    all the others stay, in their order (with distinct identifiers the list
    gets shorter by exactly one); when the backend rejects, the list is
    left as it was and the error alert is shown. *)
Theorem approve_removes_or_keeps api idpId st :
  let st' := Dashboard.handleAction api idpId "approved" st in
  match api (Some idpId) (Some "approved") "Approved by manager" with
  | Ok _ =>
      Dashboard.pendingIDPs st'
      = filter (λ p, Dashboard.pi_id p ≠ idpId) (Dashboard.pendingIDPs st) ∧
      (∀ p, p ∈ Dashboard.pendingIDPs st' → Dashboard.pi_id p ≠ idpId) ∧
      (NoDup (Dashboard.pi_id <$> Dashboard.pendingIDPs st) →
       idpId ∈ Dashboard.pi_id <$> Dashboard.pendingIDPs st →
       S (length (Dashboard.pendingIDPs st')) = length (Dashboard.pendingIDPs st)) ∧
      Dashboard.fb_isOpen (Dashboard.feedbackConfig st') = false ∧
      Dashboard.al_title (Dashboard.alertConfig st') = "Success" ∧
      Dashboard.al_message (Dashboard.alertConfig st') = "IDP updated"
  | Throw _ =>
      Dashboard.pendingIDPs st' = Dashboard.pendingIDPs st ∧
      Dashboard.feedbackConfig st' = Dashboard.feedbackConfig st ∧
      Dashboard.al_isOpen (Dashboard.alertConfig st') = true ∧
      Dashboard.al_title (Dashboard.alertConfig st') = "Error" ∧
      Dashboard.al_message (Dashboard.alertConfig st') = "Action failed"
  end.
Proof.
  intros st'. subst st'. unfold Dashboard.handleAction, Dashboard.submitAction.
  rewrite decide_True by done.
  destruct (api _ _ _) as [[]|e]; simpl; [|done].
  assert (Heq : filter (λ p, Some (Dashboard.pi_id p) ≠ Some idpId) (Dashboard.pendingIDPs st)
                = filter (λ p, Dashboard.pi_id p ≠ idpId) (Dashboard.pendingIDPs st)).
  { apply list_filter_iff. intros p. split.
    - intros Hne Heq. apply Hne. by rewrite Heq.
    - by intros Hne [= ?]. }
  split_and!; try done.
  - intros p Hp. rewrite Heq in Hp. by apply list_elem_of_filter in Hp as [? _].
  - intros Hnd Hin. by apply pending_without_length.
Qed.

Lemma approve_removes_or_keeps_witness :
  Dashboard.pi_id <$> Dashboard.pendingIDPs
    (Dashboard.handleAction SampleMore.api_ok "i2" "approved"
       (Dashboard.initial SampleMore.pending3)) = ["i1"; "i3"] ∧
  Dashboard.pendingIDPs
    (Dashboard.handleAction SampleMore.api_down "i2" "approved"
       (Dashboard.initial SampleMore.pending3)) = SampleMore.pending3.
Proof.
  split.
  - pose proof (approve_removes_or_keeps SampleMore.api_ok "i2"
                  (Dashboard.initial SampleMore.pending3)) as H.
    cbv zeta in H. unfold SampleMore.api_ok at 1 in H.
    destruct H as [Hpending _]. rewrite Hpending. reflexivity.
  - pose proof (approve_removes_or_keeps SampleMore.api_down "i2"
                  (Dashboard.initial SampleMore.pending3)) as H.
    cbv zeta in H. unfold SampleMore.api_down at 1 in H.
    destruct H as [Hpending _]. rewrite Hpending. reflexivity.
Defined.

(** X13. Any decision other than approval only opens the feedback dialog on
    that plan: nothing is sent to the backend and the pending list is
    untouched. Confirming the dialog then submits that plan with that
    status and the feedback typed in: accepted, the plan leaves the list
    and the dialog closes; rejected, the list stays as it was and the
    dialog stays open on the same plan. *)
Theorem request_changes_then_confirm api idpId status feedback st :
  status ≠ "approved" →
  let opened := Dashboard.handleAction api idpId status st in
  (∀ api', Dashboard.handleAction api' idpId status st = opened) ∧
  Dashboard.pendingIDPs opened = Dashboard.pendingIDPs st ∧
  Dashboard.alertConfig opened = Dashboard.alertConfig st ∧
  Dashboard.feedbackConfig opened
  = {| Dashboard.fb_isOpen := true; Dashboard.fb_idpId := Some idpId;
       Dashboard.fb_status := Some status |} ∧
  let st' := Dashboard.confirmFeedback api feedback opened in
  match api (Some idpId) (Some status) feedback with
  | Ok _ =>
      Dashboard.pendingIDPs st'
      = filter (λ p, Dashboard.pi_id p ≠ idpId) (Dashboard.pendingIDPs st) ∧
      Dashboard.feedbackConfig st'
      = {| Dashboard.fb_isOpen := false; Dashboard.fb_idpId := None;
           Dashboard.fb_status := None |} ∧
      Dashboard.al_title (Dashboard.alertConfig st') = "Success" ∧
      Dashboard.al_message (Dashboard.alertConfig st')
      = (if decide (status = "needs_revision")
         then "IDP returned for revision" else "IDP updated")
  | Throw _ =>
      Dashboard.pendingIDPs st' = Dashboard.pendingIDPs st ∧
      Dashboard.feedbackConfig st' = Dashboard.feedbackConfig opened ∧
      Dashboard.al_title (Dashboard.alertConfig st') = "Error"
  end.
Proof.
  intros Hne opened. subst opened. unfold Dashboard.handleAction.
  rewrite decide_False by done.
  split_and!; try done.
  { intros api'. by rewrite decide_False. }
  unfold Dashboard.confirmFeedback, Dashboard.submitAction. simpl.
  destruct (api _ _ _) as [[]|e]; simpl; [|done].
  split_and!; try done.
  - apply list_filter_iff. intros p. split.
    + intros Hp Heq. apply Hp. by rewrite Heq.
    + by intros Hp [= ?].
  - destruct (decide (status = "needs_revision")) as [->|Hs].
    + by rewrite decide_True.
    + rewrite decide_False; [done|]. by intros [= ?].
Qed.

Lemma request_changes_then_confirm_witness :
  Dashboard.pi_id <$> Dashboard.pendingIDPs
    (Dashboard.confirmFeedback SampleMore.api_ok "too vague"
       (Dashboard.handleAction SampleMore.api_ok "i1" "needs_revision"
          (Dashboard.initial SampleMore.pending3))) = ["i2"; "i3"].
Proof.
  destruct (request_changes_then_confirm SampleMore.api_ok "i1" "needs_revision"
              "too vague" (Dashboard.initial SampleMore.pending3))
    as (_ & _ & _ & _ & H); [done|].
  cbv zeta in H. unfold SampleMore.api_ok at 1 in H.
  destruct H as [Hpending _]. rewrite Hpending. reflexivity.
Defined.

(** * Attribution of the candidates *)

Lemma provider_known_cases (p : option string) :
  provider_known p = false ↔ p = None ∨ p = Some "" ∨ p = Some "Unknown".
Proof.
  unfold provider_known. destruct p as [s|]; simpl; [|by split; [left|]].
  destruct (decide (s = "")) as [->|Hs]; [by split; [right; left|]|].
  destruct (decide (s = "Unknown")) as [->|Hu].
  - split; [by right; right|]. intros _.
    rewrite (bool_decide_eq_false_2 (Some "Unknown" ≠ Some "Unknown")); [|by intros ?].
    apply andb_false_r.
  - rewrite bool_decide_eq_true_2 by done.
    rewrite bool_decide_eq_true_2 by (by intros [= ?]).
    split; [done|]. intros [?|[[= ?]|[= ?]]]; done.
Qed.

(** X14. Every candidate is attributed to a user of the store: its creator
    is populated, so the placeholder "Unknown" is never written by the
    controller itself. The provider of a candidate is the creator's display
    name exactly when the stored provider is absent, empty or "Unknown",
    and the stored provider otherwise; the author of the item the fallback
    makes of it is the creator's display name. *)
Theorem candidates_are_attributed w req user agg :
  aggregate w req user = Ok agg →
  ∀ fr, fr ∈ p_resources (agg_payload agg) →
    ∃ r u, r ∈ db_resources (w_db w) ∧ u ∈ db_users (w_db w) ∧
           r_createdBy r = Some (u_id u) ∧ fr_id fr = r_id r ∧
           fr_createdBy fr = Some {| c_id := u_id u; c_name := u_name u |} ∧
           rec_author (fallbackRec fr) = Some (u_name u) ∧
           rec_provider (fallbackRec fr) = fr_provider fr ∧
           fr_provider fr =
             (if decide (r_provider r = None ∨ r_provider r = Some "" ∨
                         r_provider r = Some "Unknown")
              then Some (u_name u) else r_provider r).
Proof.
  intros Hagg fr.
  apply aggregate_Ok_inv in Hagg as (_ & _ & _ & _ & _ & Hfr & Hp & _).
  rewrite Hp, Hfr. unfold formattedResources, allResources.
  intros (rc & -> & Hrc)%list_elem_of_fmap.
  apply list_elem_of_fmap in Hrc as (r & -> & Hr).
  apply list_elem_of_filter in Hr as [Hby Hr].
  unfold createdBy_in in Hby. destruct (r_createdBy r) as [i|] eqn:Hi; [|done].
  apply list_elem_of_fmap in Hby as (u0 & -> & Hu0).
  apply list_elem_of_filter in Hu0 as [_ Hu0].
  destruct (populate_createdBy_found _ r u0 Hu0 Hi) as (c & Hpop & _).
  destruct (populate_createdBy_user _ _ _ Hpop) as (u & Huin & Hbyu & ->).
  exists r, u. rewrite Hpop. simpl. split_and!; try done.
  destruct (provider_known (r_provider r)) eqn:Hknown.
  - rewrite decide_False; [done|]. intros Hcases%provider_known_cases. congruence.
  - rewrite decide_True; [done|]. by apply provider_known_cases.
Qed.

Lemma candidates_are_attributed_witness :
  let fr := Sample.mkCandidate "r3" "SQL" "Adam" "u-adam" "Adam" in
  ∃ r u, r ∈ db_resources Sample.db0 ∧ u ∈ db_users Sample.db0 ∧
         r_createdBy r = Some (u_id u) ∧ fr_id fr = r_id r ∧
         fr_createdBy fr = Some {| c_id := u_id u; c_name := u_name u |} ∧
         rec_author (fallbackRec fr) = Some (u_name u) ∧
         rec_provider (fallbackRec fr) = fr_provider fr ∧
         fr_provider fr =
           (if decide (r_provider r = None ∨ r_provider r = Some "" ∨
                       r_provider r = Some "Unknown")
            then Some (u_name u) else r_provider r).
Proof.
  apply (candidates_are_attributed Sample.w_ok Sample.req0 Sample.alice Sample.agg0).
  - vm_compute; reflexivity.
  - vm_compute. do 2 right. left.
Defined.
